(** * Giulia: the Julia-set WebGL viewer (webgl_viewer/julia-viewer.js)

    A shallow embedding of the [JuliaSetViewer] class and of the fragment
    shader it compiles, with the properties stated about them.

    - JavaScript numbers are IEEE 754 binary64 values: they are modelled by
      Rocq's primitive [float], whose operations are specified by
      [FloatAxioms] against [SpecFloat].
    - The GLSL fragment shader computes in [precision mediump float], whose
      width is left to the GPU.  The shader is therefore written once over an
      interface [ShaderArith]; the properties that only depend on the control
      flow hold for every implementation of it, the formulas and bounds are
      stated in the exact rational instance, and what is sensitive to
      rounding is stated in the binary64 instance.
    - The class is a record of its fields; every event handler is a function
      on that record, and the GL context is a second record holding the
      uniforms, the frame buffer and the number of draw calls. *)

From Stdlib Require Import ZArith QArith Qreduction Qfield Qpower Lqa Floats Bool List String Ascii Lia.
Import ListNotations.

#[local] Set Warnings "-inexact-float".

(* ================================================================== *)
(** * JavaScript numbers *)
(* ================================================================== *)

Module JS.

Local Open Scope float_scope.

(** [Math.min(a, b)]: NaN if either argument is NaN, and -0 is smaller
    than +0. *)
Definition Math_min (a b : float) : float :=
  if is_nan a || is_nan b then nan
  else if a <? b then a
  else if b <? a then b
  else if get_sign a then a else b.

(** [Math.max(a, b)]: NaN if either argument is NaN, and +0 is larger
    than -0. *)
Definition Math_max (a b : float) : float :=
  if is_nan a || is_nan b then nan
  else if a <? b then b
  else if b <? a then a
  else if get_sign a then b else a.

(** Conversion of a mathematical integer to a number: the nearest binary64
    value, ties to even (exact below 2^53, so exact on [canvas.width], an
    [unsigned long]). *)
Definition of_Z (z : Z) : float :=
  SF2Prim (binary_normalize prec emax z 0 false).

(** Truncation of a number to an integer, as the DOM does when a number is
    stored in an [unsigned long] attribute (NaN and the infinities give 0). *)
Definition to_Z (x : float) : Z :=
  match Prim2SF x with
  | S754_finite s m e =>
      let a := match e with
               | Zneg k => Z.shiftr (Zpos m) (Zpos k)
               | _ => Z.shiftl (Zpos m) e
               end in
      if s then Z.opp a else a
  | _ => 0%Z
  end.

(** [x || d] on numbers: [d] when [x] is falsy (NaN, +0 or -0). *)
Definition or_default (x d : float) : float :=
  if is_nan x || is_zero x then d else x.

(** ** [parseFloat] and [parseInt]

    A string is a sequence of code units below 256, each an [ascii]; the
    white space and line terminators among them are the codes 9 to 13, 32
    and 160.  Both functions skip leading white space, read the longest
    prefix that is a literal, ignore what follows it, and give NaN when
    there is no such prefix. *)

Definition is_white_space (c : ascii) : bool :=
  let n := nat_of_ascii c in
  (Nat.leb 9 n && Nat.leb n 13) || Nat.eqb n 32 || Nat.eqb n 160.

Fixpoint trim_start (s : string) : string :=
  match s with
  | String c r => if is_white_space c then trim_start r else s
  | EmptyString => s
  end.

Definition read_sign (s : string) : bool * string :=
  match s with
  | String "-"%char r => (true, r)
  | String "+"%char r => (false, r)
  | _ => (false, s)
  end.

Definition digit_of (c : ascii) : option Z :=
  let n := Z.of_nat (nat_of_ascii c) in
  if ((48 <=? n) && (n <=? 57))%Z then Some (n - 48)%Z else None.

(** Reads digits from the front of [s]: the accumulated value, the number
    of digits read and the rest of the string. *)
Fixpoint read_digits (s : string) (acc : Z) (cnt : nat) : Z * nat * string :=
  match s with
  | EmptyString => (acc, cnt, s)
  | String c s' =>
      match digit_of c with
      | Some d => read_digits s' (acc * 10 + d)%Z (S cnt)
      | None => (acc, cnt, s)
      end
  end.

(** The value of an exponent part [e], [e+] or [e-] followed by digits, at
    the front of [s]; without digits there is no exponent part, and the
    literal ends before the [e]. *)
Definition read_exponent (s : string) : Z :=
  match s with
  | String c r =>
      if Ascii.eqb c "e" || Ascii.eqb c "E" then
        let '(neg, body) := read_sign r in
        let '(e, n, _) := read_digits body 0%Z O in
        match n with
        | O => 0%Z
        | _ => if neg then (- e)%Z else e
        end
      else 0%Z
  | EmptyString => 0%Z
  end.

(** The number nearest to [m * 10^k], ties to even, for [m] written with
    [digits] digits.  The quotient or product is rounded once, from its
    exact value; outside the decades that binary64 covers the result is
    known without computing the power of ten. *)
Definition of_decimal (m k : Z) (digits : nat) : float :=
  match m with
  | Zpos p =>
      if (310 <? k)%Z then infinity
      else if (Z.of_nat digits + k <? -330)%Z then 0
      else if (0 <=? k)%Z then
        SF2Prim (binary_normalize prec emax (m * 10 ^ k) 0 false)
      else
        SF2Prim (SFdiv prec emax (S754_finite false p 0)
                   (S754_finite false (Z.to_pos (10 ^ (- k))) 0))
  | _ => 0
  end.

(** [parseFloat(s)]: an optional sign, then either the word Infinity or
    digits with an optional fraction ([1], [1.], [1.5], [.5]) and an
    optional exponent part. *)
Definition parseFloat (s : string) : float :=
  let '(neg, body) := read_sign (trim_start s) in
  let v :=
    if prefix "Infinity" body then infinity
    else
      let '(ip, ni, rest) := read_digits body 0%Z O in
      let '(m, nf, rest) :=
        match rest with
        | String "."%char r =>
            let '(v, cnt, rest') := read_digits r ip O in
            match (ni + cnt)%nat with
            | O => (ip, O, rest)
            | _ => (v, cnt, rest')
            end
        | _ => (ip, O, rest)
        end in
      match (ni + nf)%nat with
      | O => nan
      | digits => of_decimal m (read_exponent rest - Z.of_nat nf) digits
      end in
  if neg then - v else v.

Definition hex_digit_of (c : ascii) : option Z :=
  let n := Z.of_nat (nat_of_ascii c) in
  if ((48 <=? n) && (n <=? 57))%Z then Some (n - 48)%Z
  else if ((65 <=? n) && (n <=? 70))%Z then Some (n - 55)%Z
  else if ((97 <=? n) && (n <=? 102))%Z then Some (n - 87)%Z
  else None.

Fixpoint read_hex_digits (s : string) (acc : Z) (cnt : nat) : Z * nat :=
  match s with
  | EmptyString => (acc, cnt)
  | String c s' =>
      match hex_digit_of c with
      | Some d => read_hex_digits s' (acc * 16 + d)%Z (S cnt)
      | None => (acc, cnt)
      end
  end.

(** [parseInt(s)] without a radix: an optional sign, then hexadecimal
    digits after a prefix [0x] or [0X], decimal digits otherwise; the
    integer read is rounded to the nearest number. *)
Definition parseInt (s : string) : float :=
  let '(neg, body) := read_sign (trim_start s) in
  let '(n, cnt) :=
    match body with
    | String "0"%char (String x r) =>
        if Ascii.eqb x "x" || Ascii.eqb x "X" then read_hex_digits r 0%Z O
        else let '(n, cnt, _) := read_digits body 0%Z O in (n, cnt)
    | _ => let '(n, cnt, _) := read_digits body 0%Z O in (n, cnt)
    end in
  match cnt with
  | O => nan
  | _ => if neg then - of_Z n else of_Z n
  end.

(** [ToInt32], the conversion [uniform1i] applies to a number: truncation,
    then wrap-around to 32 signed bits (NaN and the infinities give 0). *)
Definition ToInt32 (x : float) : Z :=
  ((to_Z x + 2 ^ 31) mod 2 ^ 32 - 2 ^ 31)%Z.

(** [ToUint32]-style conversion for an [unsigned long] attribute. *)
Definition ToUint32 (x : float) : Z := (to_Z x mod 2 ^ 32)%Z.

(** Assignment of a number to a reflecting [unsigned long] attribute with
    a default, as [canvas.width] (default 300) and [canvas.height] (default
    150) are: the number is converted modulo 2^32, and a result above
    2147483647 is replaced by the default. *)
Definition reflect_unsigned_long (default : Z) (x : float) : Z :=
  let n := ToUint32 x in
  if (n <=? 2147483647)%Z then n else default.

End JS.

(* ================================================================== *)
(** * The shader's arithmetic *)
(* ================================================================== *)

(** What the fragment shader needs from its [float] type.  [lit] reads a
    decimal literal of the shader text, [of_int] is the constructor
    [float(i)], and [of_number] is the conversion that [uniform1f] and
    [uniform2f] apply to a JavaScript number. *)
Class ShaderArith (F : Type) := {
  fadd : F -> F -> F;
  fsub : F -> F -> F;
  fmul : F -> F -> F;
  fdiv : F -> F -> F;
  fltb : F -> F -> bool;
  of_int : Z -> F;
  lit : Q -> F;
  of_number : float -> F
}.

Declare Scope glsl_scope.
Delimit Scope glsl_scope with glsl.
Infix "+" := fadd : glsl_scope.
Infix "-" := fsub : glsl_scope.
Infix "*" := fmul : glsl_scope.
Infix "/" := fdiv : glsl_scope.
Infix "<?" := fltb : glsl_scope.

(** The value of a finite binary64 number as a fraction; 0 stands for NaN
    and the infinities, which have none. *)
Definition Q_of_number (x : float) : Q :=
  match Prim2SF x with
  | S754_finite s m e =>
      Qred ((if s then -1 else 1) * inject_Z (Zpos m) * Qpower 2 e)
  | _ => 0
  end.

(** Exact arithmetic on reduced fractions: no rounding, and equal values
    are equal terms.  It gives the value of the formulas that the shader
    text denotes; a floating-point unit follows them up to rounding, so
    what is stated in this instance is a formula or a bound, and not the
    iteration count of a pixel whose orbit passes within rounding distance
    of the escape radius.  Division by zero follows [Qinv] and gives 0,
    where a floating-point unit gives an infinity or NaN: statements in
    this instance are made for non-zero divisors. *)
#[export] Instance exactQ : ShaderArith Q := {|
  fadd a b := Qred (a + b);
  fsub a b := Qred (a - b);
  fmul a b := Qred (a * b);
  fdiv a b := Qred (a / b);
  fltb a b := negb (Qle_bool b a);
  of_int z := inject_Z z;
  lit q := Qred q;
  of_number := Q_of_number
|}.

(** IEEE binary64 arithmetic, the widest a GPU offers. *)
Definition binary64 : ShaderArith float := {|
  fadd := PrimFloat.add;
  fsub := PrimFloat.sub;
  fmul := PrimFloat.mul;
  fdiv := PrimFloat.div;
  fltb := PrimFloat.ltb;
  of_int := JS.of_Z;
  lit q := PrimFloat.div (JS.of_Z (Qnum q)) (JS.of_Z (Zpos (Qden q)));
  of_number x := x
|}.

(* ================================================================== *)
(** * The shaders *)
(* ================================================================== *)

Record vec2 (F : Type) := Vec2 { vx : F; vy : F }.
Record vec3 (F : Type) := Vec3 { c_r : F; c_g : F; c_b : F }.
Record vec4 (F : Type) := Vec4 { rgb : vec3 F; alpha : F }.
Arguments Vec2 {F} _ _.
Arguments vx {F} _.
Arguments vy {F} _.
Arguments Vec3 {F} _ _ _.
Arguments c_r {F} _.
Arguments c_g {F} _.
Arguments c_b {F} _.
Arguments Vec4 {F} _ _.
Arguments rgb {F} _.
Arguments alpha {F} _.

(** The uniforms of the fragment shader. *)
Record Uniforms (F : Type) := {
  u_julia_c : vec2 F;
  u_zoom : F;
  u_offset : vec2 F;
  u_max_iterations : Z;
  u_resolution : vec2 F
}.
Arguments u_julia_c {F} _.
Arguments u_zoom {F} _.
Arguments u_offset {F} _.
Arguments u_max_iterations {F} _.
Arguments u_resolution {F} _.

Section Shader.

Context {F : Type} `{ShaderArith F}.
Local Open Scope glsl_scope.

(** Vertex shader: [v_texCoord = a_position * 0.5 + 0.5]. *)
Definition vertex_texCoord (a_position : vec2 F) : vec2 F :=
  Vec2 (vx a_position * lit 0.5 + lit 0.5) (vy a_position * lit 0.5 + lit 0.5).

(** [dot(a, b)] on [vec2]. *)
Definition dot (a b : vec2 F) : F := vx a * vx b + vy a * vy b.

(** [mix(x, y, a) = x * (1 - a) + y * a], component by component. *)
Definition mix1 (x y a : F) : F := x * (lit 1 - a) + y * a.
Definition mix (x y : vec3 F) (a : F) : vec3 F :=
  Vec3 (mix1 (c_r x) (c_r y) a) (mix1 (c_g x) (c_g y) a) (mix1 (c_b x) (c_b y) a).

(** Lines 128-131: the complex-plane point of a texture coordinate. *)
Definition map_to_plane (u : Uniforms F) (uv : vec2 F) : vec2 F :=
  let aspect := vx (u_resolution u) / vy (u_resolution u) in
  let zx := ((vx uv - lit 0.5) * lit 2.0) / u_zoom u + vx (u_offset u) in
  let zy := ((vy uv - lit 0.5) * lit 2.0) / u_zoom u + vy (u_offset u) in
  Vec2 (zx * aspect) zy.

(** Lines 142-144: one application of [z <- z^2 + c]. *)
Definition julia_step (c z : vec2 F) : vec2 F :=
  let new_x := vx z * vx z - vy z * vy z + vx c in
  let new_y := lit 2.0 * vx z * vy z + vy c in
  Vec2 new_x new_y.

(** Line 139: the escape test [dot(z, z) > 4.0]. *)
Definition escaped (z : vec2 F) : bool := lit 4.0 <? dot z z.

(** Lines 134-147: the loop [for (int i = 0; i < 500; i++)], with [fuel]
    the number of values of [i] still to visit.  Returns the last [z] and
    [iterations].  The shader's [int] is modelled by [Z]: both counters stay
    within 0 and 500. *)
Fixpoint julia_loop (fuel : nat) (i N : Z) (c z : vec2 F) (iterations : Z)
  : vec2 F * Z :=
  match fuel with
  | O => (z, iterations)
  | S fuel' =>
      if (N <=? i)%Z then (z, iterations)
      else if escaped z then (z, iterations)
      else julia_loop fuel' (i + 1)%Z N c (julia_step c z) (iterations + 1)%Z
  end.

(** The constant loop bound of the shader. *)
Definition LOOP_BOUND : nat := 500.

Definition julia_iterations (N : Z) (c z : vec2 F) : Z :=
  snd (julia_loop LOOP_BOUND 0 N c z 0).

Definition color1 : vec3 F := Vec3 (lit 0.1) (lit 0.2) (lit 0.5).
Definition color2 : vec3 F := Vec3 (lit 0.3) (lit 0.8) (lit 0.9).
Definition color3 : vec3 F := Vec3 (lit 1.0) (lit 0.4) (lit 0.4).
Definition color4 : vec3 F := Vec3 (lit 1.0) (lit 1.0) (lit 0.5).

Definition black : vec4 F := Vec4 (Vec3 (lit 0.0) (lit 0.0) (lit 0.0)) (lit 1.0).

(** Lines 155-170: the gradient of an escaped point. *)
Definition gradient (t : F) : vec3 F :=
  if t <? lit 0.33 then mix color1 color2 (t * lit 3.0)
  else if t <? lit 0.66 then mix color2 color3 ((t - lit 0.33) * lit 3.0)
  else mix color3 color4 ((t - lit 0.66) * lit 3.0).

(** Lines 150-173: the colour of a pixel from its iteration count. *)
Definition shade (iterations N : Z) : vec4 F :=
  if (iterations =? N)%Z then black
  else
    let t := of_int iterations / of_int N in
    Vec4 (gradient t) (lit 1.0).

(** [main] of the fragment shader: [gl_FragColor] for one fragment. *)
Definition fragment_main (u : Uniforms F) (v_texCoord : vec2 F) : vec4 F :=
  let uv := v_texCoord in
  let c := u_julia_c u in
  let z := map_to_plane u uv in
  shade (julia_iterations (u_max_iterations u) c z) (u_max_iterations u).

(** The quad of [setupGeometry] covers clip space, so the rasteriser
    produces one fragment per pixel of the viewport; [a_position]
    interpolated at the centre of pixel [(i, j)] of a [w] x [h] viewport is
    [2 (i + 1/2) / w - 1] and likewise for [j]. *)
Definition pixel_position (w h i j : Z) : vec2 F :=
  Vec2 (lit 2 * (of_int i + lit 0.5) / of_int w - lit 1)
       (lit 2 * (of_int j + lit 0.5) / of_int h - lit 1).

Definition pixel_color (u : Uniforms F) (w h i j : Z) : vec4 F :=
  fragment_main u (vertex_texCoord (pixel_position w h i j)).

(** The image a draw call writes: rows from the bottom, pixels from the
    left, each pixel holding [gl_FragColor] as the shader computed it. *)
Definition draw_quad (u : Uniforms F) (w h : Z) : list (list (vec4 F)) :=
  map (fun j => map (fun i => pixel_color u w h (Z.of_nat i) (Z.of_nat j))
                    (seq 0 (Z.to_nat w)))
      (seq 0 (Z.to_nat h)).

End Shader.

(* ================================================================== *)
(** * Handlers as state transformers that may throw *)
(* ================================================================== *)

(** A JavaScript computation on a mutable state [S]: it returns or throws,
    and the mutations made before a throw stay. *)
Inductive outcome (A : Type) : Type :=
| Returned (a : A)
| Thrown (message : string).
Arguments Returned {A} _.
Arguments Thrown {A} _.

Definition Js (S A : Type) : Type := S -> outcome A * S.

Definition ret {S A} (a : A) : Js S A := fun s => (Returned a, s).

Definition bind {S A B} (m : Js S A) (k : A -> Js S B) : Js S B :=
  fun s =>
    match m s with
    | (Returned a, s') => k a s'
    | (Thrown e, s') => (Thrown e, s')
    end.

Definition throw {S A} (message : string) : Js S A :=
  fun s => (Thrown message, s).

Definition get {S} : Js S S := fun s => (Returned s, s).

Definition modify {S} (f : S -> S) : Js S unit := fun s => (Returned tt, f s).

(** [try { body } catch (error) { handler(error.message) }]. *)
Definition try_catch {S A} (body : Js S A) (handler : string -> Js S A) : Js S A :=
  fun s =>
    match body s with
    | (Returned a, s') => (Returned a, s')
    | (Thrown e, s') => handler e s'
    end.

Declare Scope js_scope.
Delimit Scope js_scope with js.
Notation "x <- m ;; k" := (bind m (fun x => k))
  (at level 61, m at next level, right associativity) : js_scope.
Notation "m ;; k" := (bind m (fun _ => k))
  (at level 61, right associativity) : js_scope.

(** The state a handler leaves, whether it returned or threw. *)
Definition exec {S A} (m : Js S A) (s : S) : S := snd (m s).

(* ================================================================== *)
(** * The rendering context *)
(* ================================================================== *)

(** The part of a WebGL context that [JuliaSetViewer] uses.  WebGL calls
    never throw: an invalid call records an error and does nothing. *)
Record GL (F : Type) := {
  gl_viewport : Z * Z;                    (* width and height; origin 0, 0 *)
  gl_clear_color : vec4 F;
  gl_current_program : bool;              (* a linked program is in use *)
  gl_quad : bool;                         (* the quad is bound to a_position *)
  gl_uniforms : Uniforms F;
  gl_framebuffer : list (list (vec4 F));
  gl_draws : nat                          (* draw calls issued *)
}.
Arguments gl_viewport {F} _.
Arguments gl_clear_color {F} _.
Arguments gl_current_program {F} _.
Arguments gl_quad {F} _.
Arguments gl_uniforms {F} _.
Arguments gl_framebuffer {F} _.
Arguments gl_draws {F} _.

Section Context_ops.

Context {F : Type} `{ShaderArith F}.

Definition transparent : vec4 F :=
  Vec4 (Vec3 (lit 0.0) (lit 0.0) (lit 0.0)) (lit 0.0).

Definition zero_uniforms : Uniforms F :=
  {| u_julia_c := Vec2 (lit 0.0) (lit 0.0);
     u_zoom := lit 0.0;
     u_offset := Vec2 (lit 0.0) (lit 0.0);
     u_max_iterations := 0;
     u_resolution := Vec2 (lit 0.0) (lit 0.0) |}.

(** A context as [getContext] returns it for a canvas of the given size. *)
Definition fresh_context (w h : Z) : GL F :=
  {| gl_viewport := (w, h);
     gl_clear_color := transparent;
     gl_current_program := false;
     gl_quad := false;
     gl_uniforms := zero_uniforms;
     gl_framebuffer := [];
     gl_draws := 0 |}.

Definition viewport (w h : Z) (g : GL F) : GL F :=
  {| gl_viewport := (w, h);
     gl_clear_color := gl_clear_color g;
     gl_current_program := gl_current_program g;
     gl_quad := gl_quad g;
     gl_uniforms := gl_uniforms g;
     gl_framebuffer := gl_framebuffer g;
     gl_draws := gl_draws g |}.

Definition clearColor (c : vec4 F) (g : GL F) : GL F :=
  {| gl_viewport := gl_viewport g;
     gl_clear_color := c;
     gl_current_program := gl_current_program g;
     gl_quad := gl_quad g;
     gl_uniforms := gl_uniforms g;
     gl_framebuffer := gl_framebuffer g;
     gl_draws := gl_draws g |}.

(** [clear(COLOR_BUFFER_BIT)]; the viewport is the whole canvas whenever
    the viewer clears. *)
Definition clear (g : GL F) : GL F :=
  {| gl_viewport := gl_viewport g;
     gl_clear_color := gl_clear_color g;
     gl_current_program := gl_current_program g;
     gl_quad := gl_quad g;
     gl_uniforms := gl_uniforms g;
     gl_framebuffer :=
       repeat (repeat (gl_clear_color g) (Z.to_nat (fst (gl_viewport g))))
              (Z.to_nat (snd (gl_viewport g)));
     gl_draws := gl_draws g |}.

(** [useProgram(p)], where [p] tells whether the program object exists and
    linked. *)
Definition useProgram (p : option bool) (g : GL F) : GL F :=
  {| gl_viewport := gl_viewport g;
     gl_clear_color := gl_clear_color g;
     gl_current_program :=
       match p with
       | Some true => true
       | Some false => gl_current_program g
       | None => false
       end;
     gl_quad := gl_quad g;
     gl_uniforms := gl_uniforms g;
     gl_framebuffer := gl_framebuffer g;
     gl_draws := gl_draws g |}.

(** The five [uniform*] calls of [render]; they reach the program in use,
    and are errors without one. *)
Definition set_uniforms (u : Uniforms F) (g : GL F) : GL F :=
  {| gl_viewport := gl_viewport g;
     gl_clear_color := gl_clear_color g;
     gl_current_program := gl_current_program g;
     gl_quad := gl_quad g;
     gl_uniforms := if gl_current_program g then u else gl_uniforms g;
     gl_framebuffer := gl_framebuffer g;
     gl_draws := gl_draws g |}.

(** [bindBuffer], [bufferData], [enableVertexAttribArray] and
    [vertexAttribPointer] of [setupGeometry]. *)
Definition bind_quad (g : GL F) : GL F :=
  {| gl_viewport := gl_viewport g;
     gl_clear_color := gl_clear_color g;
     gl_current_program := gl_current_program g;
     gl_quad := true;
     gl_uniforms := gl_uniforms g;
     gl_framebuffer := gl_framebuffer g;
     gl_draws := gl_draws g |}.

(** [drawArrays(TRIANGLE_STRIP, 0, 4)]. *)
Definition drawArrays (g : GL F) : GL F :=
  {| gl_viewport := gl_viewport g;
     gl_clear_color := gl_clear_color g;
     gl_current_program := gl_current_program g;
     gl_quad := gl_quad g;
     gl_uniforms := gl_uniforms g;
     gl_framebuffer :=
       if gl_current_program g && gl_quad g
       then draw_quad (gl_uniforms g) (fst (gl_viewport g)) (snd (gl_viewport g))
       else gl_framebuffer g;
     gl_draws := S (gl_draws g) |}.

End Context_ops.

(* ================================================================== *)
(** * The viewer *)
(* ================================================================== *)

(** The fields of a [JuliaSetViewer], with the few pieces of the page that
    its methods read or write.  [render_calls] counts the calls of
    [render]; it is not a field of the class.  Handlers also refresh the text
    of the value labels and the positions of the sliders, which hold no
    state of their own and are left out. *)
Record Viewer (F : Type) := {
  juliaReal : float;  (* this.juliaReal: real part of c *)
  juliaImag : float;  (* this.juliaImag: imaginary part of c *)
  zoom : float;  (* this.zoom *)
  offsetX : float;  (* this.offsetX *)
  offsetY : float;  (* this.offsetY *)
  maxIterations : float;  (* this.maxIterations *)
  isDragging : bool;  (* this.isDragging *)
  lastMouseX : float;  (* this.lastMouseX *)
  lastMouseY : float;  (* this.lastMouseY *)
  controlsVisible : bool;  (* this.controlsVisible *)
  gl : option (GL F);  (* this.gl, null until init obtains a context *)
  program : option bool;  (* this.program, with its link status *)
  canvas_width : Z;  (* this.canvas.width *)
  canvas_height : Z;  (* this.canvas.height *)
  listeners : bool;  (* the listeners of setupEventListeners are registered *)
  ui_listeners : bool;  (* the listeners of setupUIEventListeners are registered *)
  loading_show : bool;  (* the loading element has class show *)
  loading_text : string;  (* its textContent *)
  render_calls : nat  (* calls of render so far *)
}.
Arguments juliaReal {F} _.
Arguments juliaImag {F} _.
Arguments zoom {F} _.
Arguments offsetX {F} _.
Arguments offsetY {F} _.
Arguments maxIterations {F} _.
Arguments isDragging {F} _.
Arguments lastMouseX {F} _.
Arguments lastMouseY {F} _.
Arguments controlsVisible {F} _.
Arguments gl {F} _.
Arguments program {F} _.
Arguments canvas_width {F} _.
Arguments canvas_height {F} _.
Arguments listeners {F} _.
Arguments ui_listeners {F} _.
Arguments loading_show {F} _.
Arguments loading_text {F} _.
Arguments render_calls {F} _.

Section Viewer_updates.

Context {F : Type}.

Definition set_juliaReal (x : float) (v : Viewer F) : Viewer F :=
  {| juliaReal := x; juliaImag := juliaImag v; zoom := zoom v;
     offsetX := offsetX v; offsetY := offsetY v;
     maxIterations := maxIterations v; isDragging := isDragging v;
     lastMouseX := lastMouseX v; lastMouseY := lastMouseY v;
     controlsVisible := controlsVisible v; gl := gl v; program := program v;
     canvas_width := canvas_width v; canvas_height := canvas_height v;
     listeners := listeners v; ui_listeners := ui_listeners v;
     loading_show := loading_show v; loading_text := loading_text v;
     render_calls := render_calls v |}.

Definition set_juliaImag (x : float) (v : Viewer F) : Viewer F :=
  {| juliaReal := juliaReal v; juliaImag := x; zoom := zoom v;
     offsetX := offsetX v; offsetY := offsetY v;
     maxIterations := maxIterations v; isDragging := isDragging v;
     lastMouseX := lastMouseX v; lastMouseY := lastMouseY v;
     controlsVisible := controlsVisible v; gl := gl v; program := program v;
     canvas_width := canvas_width v; canvas_height := canvas_height v;
     listeners := listeners v; ui_listeners := ui_listeners v;
     loading_show := loading_show v; loading_text := loading_text v;
     render_calls := render_calls v |}.

Definition set_zoom (x : float) (v : Viewer F) : Viewer F :=
  {| juliaReal := juliaReal v; juliaImag := juliaImag v; zoom := x;
     offsetX := offsetX v; offsetY := offsetY v;
     maxIterations := maxIterations v; isDragging := isDragging v;
     lastMouseX := lastMouseX v; lastMouseY := lastMouseY v;
     controlsVisible := controlsVisible v; gl := gl v; program := program v;
     canvas_width := canvas_width v; canvas_height := canvas_height v;
     listeners := listeners v; ui_listeners := ui_listeners v;
     loading_show := loading_show v; loading_text := loading_text v;
     render_calls := render_calls v |}.

Definition set_offsetX (x : float) (v : Viewer F) : Viewer F :=
  {| juliaReal := juliaReal v; juliaImag := juliaImag v; zoom := zoom v;
     offsetX := x; offsetY := offsetY v; maxIterations := maxIterations v;
     isDragging := isDragging v; lastMouseX := lastMouseX v;
     lastMouseY := lastMouseY v; controlsVisible := controlsVisible v;
     gl := gl v; program := program v; canvas_width := canvas_width v;
     canvas_height := canvas_height v; listeners := listeners v;
     ui_listeners := ui_listeners v; loading_show := loading_show v;
     loading_text := loading_text v; render_calls := render_calls v |}.

Definition set_offsetY (x : float) (v : Viewer F) : Viewer F :=
  {| juliaReal := juliaReal v; juliaImag := juliaImag v; zoom := zoom v;
     offsetX := offsetX v; offsetY := x; maxIterations := maxIterations v;
     isDragging := isDragging v; lastMouseX := lastMouseX v;
     lastMouseY := lastMouseY v; controlsVisible := controlsVisible v;
     gl := gl v; program := program v; canvas_width := canvas_width v;
     canvas_height := canvas_height v; listeners := listeners v;
     ui_listeners := ui_listeners v; loading_show := loading_show v;
     loading_text := loading_text v; render_calls := render_calls v |}.

Definition set_maxIterations (x : float) (v : Viewer F) : Viewer F :=
  {| juliaReal := juliaReal v; juliaImag := juliaImag v; zoom := zoom v;
     offsetX := offsetX v; offsetY := offsetY v; maxIterations := x;
     isDragging := isDragging v; lastMouseX := lastMouseX v;
     lastMouseY := lastMouseY v; controlsVisible := controlsVisible v;
     gl := gl v; program := program v; canvas_width := canvas_width v;
     canvas_height := canvas_height v; listeners := listeners v;
     ui_listeners := ui_listeners v; loading_show := loading_show v;
     loading_text := loading_text v; render_calls := render_calls v |}.

Definition set_isDragging (x : bool) (v : Viewer F) : Viewer F :=
  {| juliaReal := juliaReal v; juliaImag := juliaImag v; zoom := zoom v;
     offsetX := offsetX v; offsetY := offsetY v;
     maxIterations := maxIterations v; isDragging := x;
     lastMouseX := lastMouseX v; lastMouseY := lastMouseY v;
     controlsVisible := controlsVisible v; gl := gl v; program := program v;
     canvas_width := canvas_width v; canvas_height := canvas_height v;
     listeners := listeners v; ui_listeners := ui_listeners v;
     loading_show := loading_show v; loading_text := loading_text v;
     render_calls := render_calls v |}.

Definition set_lastMouseX (x : float) (v : Viewer F) : Viewer F :=
  {| juliaReal := juliaReal v; juliaImag := juliaImag v; zoom := zoom v;
     offsetX := offsetX v; offsetY := offsetY v;
     maxIterations := maxIterations v; isDragging := isDragging v;
     lastMouseX := x; lastMouseY := lastMouseY v;
     controlsVisible := controlsVisible v; gl := gl v; program := program v;
     canvas_width := canvas_width v; canvas_height := canvas_height v;
     listeners := listeners v; ui_listeners := ui_listeners v;
     loading_show := loading_show v; loading_text := loading_text v;
     render_calls := render_calls v |}.

Definition set_lastMouseY (x : float) (v : Viewer F) : Viewer F :=
  {| juliaReal := juliaReal v; juliaImag := juliaImag v; zoom := zoom v;
     offsetX := offsetX v; offsetY := offsetY v;
     maxIterations := maxIterations v; isDragging := isDragging v;
     lastMouseX := lastMouseX v; lastMouseY := x;
     controlsVisible := controlsVisible v; gl := gl v; program := program v;
     canvas_width := canvas_width v; canvas_height := canvas_height v;
     listeners := listeners v; ui_listeners := ui_listeners v;
     loading_show := loading_show v; loading_text := loading_text v;
     render_calls := render_calls v |}.

Definition set_controlsVisible (x : bool) (v : Viewer F) : Viewer F :=
  {| juliaReal := juliaReal v; juliaImag := juliaImag v; zoom := zoom v;
     offsetX := offsetX v; offsetY := offsetY v;
     maxIterations := maxIterations v; isDragging := isDragging v;
     lastMouseX := lastMouseX v; lastMouseY := lastMouseY v;
     controlsVisible := x; gl := gl v; program := program v;
     canvas_width := canvas_width v; canvas_height := canvas_height v;
     listeners := listeners v; ui_listeners := ui_listeners v;
     loading_show := loading_show v; loading_text := loading_text v;
     render_calls := render_calls v |}.

Definition set_gl (x : option (GL F)) (v : Viewer F) : Viewer F :=
  {| juliaReal := juliaReal v; juliaImag := juliaImag v; zoom := zoom v;
     offsetX := offsetX v; offsetY := offsetY v;
     maxIterations := maxIterations v; isDragging := isDragging v;
     lastMouseX := lastMouseX v; lastMouseY := lastMouseY v;
     controlsVisible := controlsVisible v; gl := x; program := program v;
     canvas_width := canvas_width v; canvas_height := canvas_height v;
     listeners := listeners v; ui_listeners := ui_listeners v;
     loading_show := loading_show v; loading_text := loading_text v;
     render_calls := render_calls v |}.

Definition set_program (x : option bool) (v : Viewer F) : Viewer F :=
  {| juliaReal := juliaReal v; juliaImag := juliaImag v; zoom := zoom v;
     offsetX := offsetX v; offsetY := offsetY v;
     maxIterations := maxIterations v; isDragging := isDragging v;
     lastMouseX := lastMouseX v; lastMouseY := lastMouseY v;
     controlsVisible := controlsVisible v; gl := gl v; program := x;
     canvas_width := canvas_width v; canvas_height := canvas_height v;
     listeners := listeners v; ui_listeners := ui_listeners v;
     loading_show := loading_show v; loading_text := loading_text v;
     render_calls := render_calls v |}.

Definition set_canvas_width (x : Z) (v : Viewer F) : Viewer F :=
  {| juliaReal := juliaReal v; juliaImag := juliaImag v; zoom := zoom v;
     offsetX := offsetX v; offsetY := offsetY v;
     maxIterations := maxIterations v; isDragging := isDragging v;
     lastMouseX := lastMouseX v; lastMouseY := lastMouseY v;
     controlsVisible := controlsVisible v; gl := gl v; program := program v;
     canvas_width := x; canvas_height := canvas_height v;
     listeners := listeners v; ui_listeners := ui_listeners v;
     loading_show := loading_show v; loading_text := loading_text v;
     render_calls := render_calls v |}.

Definition set_canvas_height (x : Z) (v : Viewer F) : Viewer F :=
  {| juliaReal := juliaReal v; juliaImag := juliaImag v; zoom := zoom v;
     offsetX := offsetX v; offsetY := offsetY v;
     maxIterations := maxIterations v; isDragging := isDragging v;
     lastMouseX := lastMouseX v; lastMouseY := lastMouseY v;
     controlsVisible := controlsVisible v; gl := gl v; program := program v;
     canvas_width := canvas_width v; canvas_height := x;
     listeners := listeners v; ui_listeners := ui_listeners v;
     loading_show := loading_show v; loading_text := loading_text v;
     render_calls := render_calls v |}.

Definition set_listeners (x : bool) (v : Viewer F) : Viewer F :=
  {| juliaReal := juliaReal v; juliaImag := juliaImag v; zoom := zoom v;
     offsetX := offsetX v; offsetY := offsetY v;
     maxIterations := maxIterations v; isDragging := isDragging v;
     lastMouseX := lastMouseX v; lastMouseY := lastMouseY v;
     controlsVisible := controlsVisible v; gl := gl v; program := program v;
     canvas_width := canvas_width v; canvas_height := canvas_height v;
     listeners := x; ui_listeners := ui_listeners v;
     loading_show := loading_show v; loading_text := loading_text v;
     render_calls := render_calls v |}.

Definition set_ui_listeners (x : bool) (v : Viewer F) : Viewer F :=
  {| juliaReal := juliaReal v; juliaImag := juliaImag v; zoom := zoom v;
     offsetX := offsetX v; offsetY := offsetY v;
     maxIterations := maxIterations v; isDragging := isDragging v;
     lastMouseX := lastMouseX v; lastMouseY := lastMouseY v;
     controlsVisible := controlsVisible v; gl := gl v; program := program v;
     canvas_width := canvas_width v; canvas_height := canvas_height v;
     listeners := listeners v; ui_listeners := x;
     loading_show := loading_show v; loading_text := loading_text v;
     render_calls := render_calls v |}.

Definition set_loading_show (x : bool) (v : Viewer F) : Viewer F :=
  {| juliaReal := juliaReal v; juliaImag := juliaImag v; zoom := zoom v;
     offsetX := offsetX v; offsetY := offsetY v;
     maxIterations := maxIterations v; isDragging := isDragging v;
     lastMouseX := lastMouseX v; lastMouseY := lastMouseY v;
     controlsVisible := controlsVisible v; gl := gl v; program := program v;
     canvas_width := canvas_width v; canvas_height := canvas_height v;
     listeners := listeners v; ui_listeners := ui_listeners v;
     loading_show := x; loading_text := loading_text v;
     render_calls := render_calls v |}.

Definition set_loading_text (x : string) (v : Viewer F) : Viewer F :=
  {| juliaReal := juliaReal v; juliaImag := juliaImag v; zoom := zoom v;
     offsetX := offsetX v; offsetY := offsetY v;
     maxIterations := maxIterations v; isDragging := isDragging v;
     lastMouseX := lastMouseX v; lastMouseY := lastMouseY v;
     controlsVisible := controlsVisible v; gl := gl v; program := program v;
     canvas_width := canvas_width v; canvas_height := canvas_height v;
     listeners := listeners v; ui_listeners := ui_listeners v;
     loading_show := loading_show v; loading_text := x;
     render_calls := render_calls v |}.

Definition set_render_calls (x : nat) (v : Viewer F) : Viewer F :=
  {| juliaReal := juliaReal v; juliaImag := juliaImag v; zoom := zoom v;
     offsetX := offsetX v; offsetY := offsetY v;
     maxIterations := maxIterations v; isDragging := isDragging v;
     lastMouseX := lastMouseX v; lastMouseY := lastMouseY v;
     controlsVisible := controlsVisible v; gl := gl v; program := program v;
     canvas_width := canvas_width v; canvas_height := canvas_height v;
     listeners := listeners v; ui_listeners := ui_listeners v;
     loading_show := loading_show v; loading_text := loading_text v;
     render_calls := x |}.

End Viewer_updates.

(** What the browser answers during [init]: the window metrics, whether a
    context of either name is available, and the info log of each
    compilation and of the link when it fails. *)
Record Browser := {
  innerWidth : float;
  innerHeight : float;
  devicePixelRatio : float;
  webgl : bool;
  experimental_webgl : bool;
  vertex_log : option string;
  fragment_log : option string;
  link_log : option string;
  page_loading_show : bool;
  page_loading_text : string
}.

(** Events of the page that the viewer listens to, with the fields of the
    event a handler reads. *)
Inductive Event : Type :=
| RealInput (value : string)
| ImagInput (value : string)
| ZoomInput (value : string)
| IterInput (value : string)
| PresetClick (data_real data_imag : string)
| MouseDown (clientX clientY : float)
| MouseMove (clientX clientY : float)
| MouseUp
| Wheel (deltaY : float)
| WindowResize (width height ratio : float)
| CogClick
| CloseClick
| CanvasClick.

Section Viewer_methods.

Context {F : Type} `{ShaderArith F}.
Local Open Scope js_scope.
Local Open Scope string_scope.
Local Open Scope float_scope.

(** The uniforms [render] uploads from the fields. *)
Definition uniforms_of (v : Viewer F) : Uniforms F :=
  {| u_julia_c := Vec2 (of_number (juliaReal v)) (of_number (juliaImag v));
     u_zoom := of_number (zoom v);
     u_offset := Vec2 (of_number (offsetX v)) (of_number (offsetY v));
     u_max_iterations := JS.ToInt32 (maxIterations v);
     u_resolution := Vec2 (of_number (JS.of_Z (canvas_width v)))
                          (of_number (JS.of_Z (canvas_height v))) |}.

(** [render()], lines 396-422. *)
Definition render : Js (Viewer F) unit :=
  modify (fun v => set_render_calls (S (render_calls v)) v) ;;
  v <- get ;;
  match gl v with
  | None => throw "TypeError: this.gl is null"
  | Some g =>
      let g := viewport (canvas_width v) (canvas_height v) g in
      let g := clearColor (Vec4 (Vec3 (of_number 0) (of_number 0) (of_number 0))
                                (of_number 1)) g in
      let g := clear g in
      let g := useProgram (program v) g in
      let g := set_uniforms (uniforms_of v) g in
      let g := drawArrays g in
      modify (set_gl (Some g))
  end.

(** [showError(message)], lines 427-432. *)
Definition showError (message : string) : Js (Viewer F) unit :=
  modify (set_loading_text message) ;;
  modify (set_loading_show true).

(** [resizeCanvas()], lines 75-92, for the given window metrics. *)
Definition resizeCanvas (width height ratio : float) : Js (Viewer F) unit :=
  let devicePixelRatio := JS.or_default ratio 1 in
  modify (set_canvas_width
            (JS.reflect_unsigned_long 300 (width * devicePixelRatio))) ;;
  modify (set_canvas_height
            (JS.reflect_unsigned_long 150 (height * devicePixelRatio))) ;;
  v <- get ;;
  match gl v with
  | Some g =>
      modify (set_gl (Some (viewport (canvas_width v) (canvas_height v) g))) ;;
      render
  | None => ret tt
  end.

(** [compileShader(source, type)], lines 197-209, for a compilation whose
    info log is [log] when it fails. *)
Definition compileShader (log : option string) : Js (Viewer F) unit :=
  match log with
  | None => ret tt
  | Some error => throw ("An error occurred compiling the shaders: " ++ error)
  end.

(** [createShaderProgram()], lines 97-192. *)
Definition createShaderProgram (b : Browser) : Js (Viewer F) unit :=
  compileShader (vertex_log b) ;;
  compileShader (fragment_log b) ;;
  match link_log b with
  | None => modify (set_program (Some true))
  | Some log =>
      modify (set_program (Some false)) ;;
      throw ("Unable to initialize shader program: " ++ log)
  end.

(** [setupGeometry()], lines 214-233. *)
Definition setupGeometry : Js (Viewer F) unit :=
  v <- get ;;
  match gl v with
  | None => throw "TypeError: this.gl is null"
  | Some g => modify (set_gl (Some (bind_quad g)))
  end.

Definition setupEventListeners : Js (Viewer F) unit :=
  modify (set_listeners true).

Definition setupUIEventListeners : Js (Viewer F) unit :=
  modify (set_ui_listeners true).

(** [init()], lines 34-70. *)
Definition init (b : Browser) : Js (Viewer F) unit :=
  try_catch
    (resizeCanvas (innerWidth b) (innerHeight b) (devicePixelRatio b) ;;
     v <- get ;;
     modify (set_gl (if webgl b || experimental_webgl b
                     then Some (fresh_context (canvas_width v) (canvas_height v))
                     else None)) ;;
     v <- get ;;
     match gl v with
     | None => throw "WebGL not supported"
     | Some _ => ret tt
     end ;;
     createShaderProgram b ;;
     setupGeometry ;;
     setupEventListeners ;;
     setupUIEventListeners ;;
     modify (set_loading_show false) ;;
     render)
    (fun message => showError ("WebGL initialization failed: " ++ message)).

(** The constructor, lines 7-29.  A canvas is 300 by 150 until it is
    resized. *)
Definition constructed (b : Browser) : Viewer F :=
  {| juliaReal := -0.7;
     juliaImag := 0.27015;
     zoom := 1.0;
     offsetX := 0.0;
     offsetY := 0.0;
     maxIterations := 100;
     isDragging := false;
     lastMouseX := 0;
     lastMouseY := 0;
     controlsVisible := false;
     gl := None;
     program := None;
     canvas_width := 300;
     canvas_height := 150;
     listeners := false;
     ui_listeners := false;
     loading_show := page_loading_show b;
     loading_text := page_loading_text b;
     render_calls := 0 |}.

Definition new_JuliaSetViewer (b : Browser) : Viewer F :=
  exec (init b) (constructed b).

(** [toggleControls()] and [hideControls()], lines 369-391. *)
Definition toggleControls : Js (Viewer F) unit :=
  modify (fun v => set_controlsVisible (negb (controlsVisible v)) v).

Definition hideControls : Js (Viewer F) unit :=
  modify (set_controlsVisible false).

(** The wheel handler's new zoom, lines 319-321. *)
Definition wheel_zoom (deltaY zoom : float) : float :=
  let zoomFactor := if 0 <? deltaY then 0.9 else 1.1 in
  let zoom := zoom * zoomFactor in
  JS.Math_max 0.1 (JS.Math_min 10.0 zoom).

(** The listeners of [setupEventListeners] and [setupUIEventListeners],
    lines 250-332 and 344-363. *)
Definition handle (e : Event) : Js (Viewer F) unit :=
  match e with
  | RealInput value =>
      modify (set_juliaReal (JS.parseFloat value)) ;; render
  | ImagInput value =>
      modify (set_juliaImag (JS.parseFloat value)) ;; render
  | ZoomInput value =>
      modify (set_zoom (JS.parseFloat value)) ;; render
  | IterInput value =>
      modify (set_maxIterations (JS.parseInt value)) ;; render
  | PresetClick data_real data_imag =>
      modify (set_juliaReal (JS.parseFloat data_real)) ;;
      modify (set_juliaImag (JS.parseFloat data_imag)) ;;
      render
  | MouseDown clientX clientY =>
      modify (set_isDragging true) ;;
      modify (set_lastMouseX clientX) ;;
      modify (set_lastMouseY clientY)
  | MouseMove clientX clientY =>
      v <- get ;;
      if isDragging v then
        let deltaX := (clientX - lastMouseX v) / JS.of_Z (canvas_width v) in
        let deltaY := (clientY - lastMouseY v) / JS.of_Z (canvas_height v) in
        modify (set_offsetX (offsetX v - deltaX * 2.0 / zoom v)) ;;
        modify (set_offsetY (offsetY v + deltaY * 2.0 / zoom v)) ;;
        modify (set_lastMouseX clientX) ;;
        modify (set_lastMouseY clientY) ;;
        render
      else ret tt
  | MouseUp =>
      modify (set_isDragging false)
  | Wheel deltaY =>
      modify (fun v => set_zoom (wheel_zoom deltaY (zoom v)) v) ;;
      render
  | WindowResize width height ratio =>
      resizeCanvas width height ratio
  | CogClick => toggleControls
  | CloseClick => hideControls
  | CanvasClick =>
      v <- get ;;
      if controlsVisible v && negb (isDragging v) then hideControls else ret tt
  end.

(** Whether a listener for the event is registered. *)
Definition listening (e : Event) (v : Viewer F) : bool :=
  match e with
  | CogClick | CloseClick | CanvasClick => ui_listeners v
  | _ => listeners v
  end.

(** One turn of the event loop: the handler runs to completion; an
    exception it lets escape is reported and the loop goes on. *)
Definition dispatch (v : Viewer F) (e : Event) : Viewer F :=
  if listening e v then exec (handle e) v else v.

Definition run (events : list Event) (v : Viewer F) : Viewer F :=
  fold_left dispatch events v.

End Viewer_methods.

(* ================================================================== *)
(** * The vocabulary of the specification *)
(* ================================================================== *)

(** The View State: the fields an image depends on. *)
Record ViewState := {
  vs_c : float * float;
  vs_zoom : float;
  vs_offset : float * float;
  vs_maxIterations : float;
  vs_viewportSize : Z * Z
}.

Definition view_state {F : Type} (v : Viewer F) : ViewState :=
  {| vs_c := (juliaReal v, juliaImag v);
     vs_zoom := zoom v;
     vs_offset := (offsetX v, offsetY v);
     vs_maxIterations := maxIterations v;
     vs_viewportSize := (canvas_width v, canvas_height v) |}.


Section Specification.

Context {F : Type} `{ShaderArith F}.

(** The uniforms and the image that belong to a View State. *)
Definition uniforms_of_state (s : ViewState) : Uniforms F :=
  {| u_julia_c := Vec2 (of_number (fst (vs_c s))) (of_number (snd (vs_c s)));
     u_zoom := of_number (vs_zoom s);
     u_offset := Vec2 (of_number (fst (vs_offset s))) (of_number (snd (vs_offset s)));
     u_max_iterations := JS.ToInt32 (vs_maxIterations s);
     u_resolution := Vec2 (of_number (JS.of_Z (fst (vs_viewportSize s))))
                          (of_number (JS.of_Z (snd (vs_viewportSize s)))) |}.

Definition image_of (s : ViewState) : list (list (vec4 F)) :=
  draw_quad (uniforms_of_state s) (fst (vs_viewportSize s)) (snd (vs_viewportSize s)).

(** The context after the calls that [render] makes on it. *)
Definition painted (v : Viewer F) (g : GL F) : GL F :=
  drawArrays
    (set_uniforms (uniforms_of v)
       (useProgram (program v)
          (clear
             (clearColor
                (Vec4 (Vec3 (of_number 0) (of_number 0) (of_number 0)) (of_number 1))
                (viewport (canvas_width v) (canvas_height v) g))))).


(** The constructed viewer once [init] has sized the canvas, before
    anything can fail. *)
Definition sized (b : Browser) : Viewer F :=
  set_canvas_height
    (JS.reflect_unsigned_long 150
       (innerHeight b * JS.or_default (devicePixelRatio b) 1))
    (set_canvas_width
       (JS.reflect_unsigned_long 300
          (innerWidth b * JS.or_default (devicePixelRatio b) 1))
       (constructed b)).

(** The image on the canvas, when there is a context. *)
Definition displayed (v : Viewer F) : option (list (list (vec4 F))) :=
  option_map gl_framebuffer (gl v).

(** A viewer whose [init] went through: context, linked program, quad. *)
Definition initialised (v : Viewer F) : bool :=
  match gl v, program v with
  | Some g, Some true => gl_quad g
  | _, _ => false
  end.


(** The [k]-th point of the orbit of [z] under [z <- z^2 + c]. *)
Fixpoint orbit (c z : vec2 F) (k : nat) : vec2 F :=
  match k with
  | O => z
  | S k' => orbit c (julia_step c z) k'
  end.

(** The escape time as the specification words it: apply the map up to
    [budget] times, or until the point has escaped, whichever comes first,
    and count the applications. *)
Fixpoint escape_time (budget : nat) (c z : vec2 F) : Z :=
  match budget with
  | O => 0
  | S budget' =>
      if escaped z then 0 else 1 + escape_time budget' c (julia_step c z)
  end.

Definition spec_escape_time (N : Z) (c z : vec2 F) : Z :=
  escape_time (Z.to_nat N) c z.

End Specification.

(** The gradient as the specification words it: linear interpolation
    through the anchors (0, dark blue), (0.33, cyan), (0.66, pink-red) and
    (1.0, yellow), in exact arithmetic. *)
Definition lerp (a b s : Q) : Q := Qred (a + (b - a) * s).

Definition lerp3 (a b : vec3 Q) (s : Q) : vec3 Q :=
  Vec3 (lerp (c_r a) (c_r b) s) (lerp (c_g a) (c_g b) s) (lerp (c_b a) (c_b b) s).

Definition spec_gradient (t : Q) : vec3 Q :=
  if Qle_bool t 0.33 then lerp3 color1 color2 ((t - 0) / (0.33 - 0))
  else if Qle_bool t 0.66 then lerp3 color2 color3 ((t - 0.33) / (0.66 - 0.33))
  else lerp3 color3 color4 ((t - 0.66) / (1.0 - 0.66)).

(** The message [init] throws for a browser, if any: no context under
    either name, a shader that does not compile, or a program that does not
    link. *)
Definition init_failure (b : Browser) : option string :=
  if negb (webgl b || experimental_webgl b) then Some "WebGL not supported"%string
  else
    match vertex_log b, fragment_log b, link_log b with
    | Some log, _, _ =>
        Some ("An error occurred compiling the shaders: " ++ log)%string
    | None, Some log, _ =>
        Some ("An error occurred compiling the shaders: " ++ log)%string
    | None, None, Some log =>
        Some ("Unable to initialize shader program: " ++ log)%string
    | None, None, None => None
    end.


(** The zoom a handler leaves. *)
Definition zoom_after (e : Event) (z : float) : float :=
  match e with
  | ZoomInput value => JS.parseFloat value
  | Wheel deltaY => wheel_zoom deltaY z
  | _ => z
  end.

(** A browser with a 3 by 2 window in which everything succeeds, and the
    viewer it gives in binary64 arithmetic, for examples. *)
Definition small_window : Browser :=
  {| innerWidth := 3; innerHeight := 2; devicePixelRatio := 1;
     webgl := true; experimental_webgl := false;
     vertex_log := None; fragment_log := None; link_log := None;
     page_loading_show := true; page_loading_text := "Loading..." |}.

Definition small_viewer : Viewer float :=
  @new_JuliaSetViewer float binary64 small_window.

(** Whether the handler of an event calls [render]: the sliders, the
    presets and the wheel always do, a [mousemove] does while dragging, a
    resize does when there is a context, and the other handlers never do. *)
Definition triggers_render {F : Type} (e : Event) (v : Viewer F) : bool :=
  match e with
  | RealInput _ | ImagInput _ | ZoomInput _ | IterInput _
  | PresetClick _ _ | Wheel _ => true
  | MouseMove _ _ => isDragging v
  | WindowResize _ _ _ => match gl v with Some _ => true | None => false end
  | MouseDown _ _ | MouseUp | CogClick | CloseClick | CanvasClick => false
  end.

(** What holds between any two events, whatever the events carry:
    listeners are only registered on an initialised viewer, the canvas then
    shows the image of the current View State, and the context has drawn as
    often as [render] was called. *)
Definition settled {F : Type} `{ShaderArith F} (v : Viewer F) : Prop :=
  (listeners v = true \/ ui_listeners v = true -> initialised v = true) /\
  (listeners v = true \/ ui_listeners v = true ->
   displayed v = Some (image_of (view_state v))) /\
  (forall g, gl v = Some g -> gl_draws g = render_calls v) /\
  (gl v = None -> render_calls v = 0%nat).

(** A computation that returns, rather than throws, on every viewer that
    has a context. *)
Definition returns_with_context {F : Type} (k : Js (Viewer F) unit) : Prop :=
  forall u : Viewer F, gl u <> None -> k u = (Returned tt, exec k u).

(* ================================================================== *)
(** * Facts about JavaScript numbers *)
(* ================================================================== *)

(** ** The conversions on a few literals *)

Example parseFloat_literals :
  JS.parseFloat "-0.4" = (-0.4)%float /\ JS.parseFloat "0.6" = 0.6%float /\
  JS.parseFloat "0.27015" = 0.27015%float /\ JS.parseFloat "12" = 12%float /\
  is_nan (JS.parseFloat "abc") = true.
Proof. vm_compute. repeat split. Qed.

(** Exponent parts, leading white space, the word Infinity, what follows
    the literal, and literals longer than a binary64 significand. *)
Example parseFloat_grammar :
  JS.parseFloat "5e-1" = 0.5%float /\ JS.parseFloat " 1.5" = 1.5%float /\
  JS.parseFloat "-Infinity" = neg_infinity /\ JS.parseFloat ".5" = 0.5%float /\
  JS.parseFloat "5." = 5%float /\ JS.parseFloat "1e" = 1%float /\
  JS.parseFloat "3.14abc" = 3.14%float /\ JS.parseFloat "0x10" = 0%float /\
  JS.parseFloat "-0" = (-0)%float /\
  JS.parseFloat "9007199254740993" = 9007199254740992%float /\
  JS.parseFloat "0.30000000000000004" = 0.30000000000000004%float /\
  JS.parseFloat "1.00000000000000011102230246251565404236316680908203126"
  = 1.0000000000000002%float /\
  JS.parseFloat "1e400" = infinity /\ JS.parseFloat "5e-324" = 5e-324%float /\
  JS.parseFloat "2e-324" = 0%float /\
  is_nan (JS.parseFloat ".") = true /\ is_nan (JS.parseFloat "- 1") = true.
Proof. vm_compute. repeat split. Qed.

Example parseInt_grammar :
  JS.parseInt "0x10" = 16%float /\ JS.parseInt "-0X1a" = (-26)%float /\
  JS.parseInt "  42px" = 42%float /\ JS.parseInt "1e3" = 1%float /\
  JS.parseInt "012" = 12%float /\ JS.parseInt "-0" = (-0)%float /\
  JS.parseInt "18446744073709551616" = 18446744073709551616%float /\
  is_nan (JS.parseInt "0x") = true /\ is_nan (JS.parseInt ".5") = true.
Proof. vm_compute. repeat split. Qed.

(** A canvas size outside 0 .. 2147483647 falls back to the default. *)
Example canvas_size_assignment :
  JS.reflect_unsigned_long 300 1600.7%float = 1600%Z /\
  JS.reflect_unsigned_long 300 (-1)%float = 300%Z /\
  JS.reflect_unsigned_long 150 2147483648%float = 150%Z /\
  JS.reflect_unsigned_long 150 4294967296%float = 0%Z /\
  JS.reflect_unsigned_long 300 nan = 0%Z.
Proof. vm_compute. repeat split. Qed.

Example parseInt_and_conversions :
  JS.parseInt "100" = 100%float /\ JS.ToInt32 (JS.parseInt "100") = 100%Z /\
  JS.ToInt32 nan = 0%Z /\ JS.ToUint32 1600.7%float = 1600%Z /\
  JS.of_Z 800 = 800%float.
Proof. vm_compute. repeat split. Qed.

Example Math_min_max_clamp :
  JS.Math_max 0.1 (JS.Math_min 10 (10 * 1.1))%float = 10%float /\
  JS.Math_max 0.1 (JS.Math_min 10 (0.1 * 0.9))%float = 0.1%float /\
  is_nan (JS.Math_min 10 nan) = true.
Proof. vm_compute. repeat split. Qed.

(** ** Order on binary64 numbers *)

Section SF.
Lemma SFcompare_refl (x : spec_float) :
  x <> S754_nan -> SFcompare x x = Some Eq.
Proof.
  destruct x as [s|s| |s m e]; simpl; intros Hx; try congruence.
  - destruct s; reflexivity.
  - rewrite Z.compare_refl, Pos.compare_cont_refl. destruct s; reflexivity.
Qed.

Lemma SFcompare_antisym (x y : spec_float) :
  SFcompare y x = option_map CompOpp (SFcompare x y).
Proof.
  destruct x as [s|s| |s m e], y as [s'|s'| |s' m' e']; simpl;
    try (destruct s; reflexivity); try (destruct s'; reflexivity);
    try (destruct s, s'; reflexivity); try reflexivity.
  rewrite (Z.compare_antisym e e').
  pose proof (Pos.compare_cont_antisym m m' Eq) as Hm; simpl in Hm.
  rewrite <- Hm.
  destruct s, s'; simpl; try reflexivity;
    destruct (e ?= e')%Z; simpl; try reflexivity;
    destruct (Pos.compare_cont Eq m m'); reflexivity.
Qed.
End SF.

Section Rounding_facts.

Variables prec emax : Z.

Lemma iter_pos_invariant {A : Type} (P : A -> Prop) (f : A -> A) :
  (forall a, P a -> P (f a)) ->
  forall n a, P a -> P (iter_pos f n a).
Proof.
  intros Hf. induction n as [n IH|n IH|]; intros a Ha; simpl.
  - apply IH, IH, Hf, Ha.
  - apply IH, IH, Ha.
  - apply Hf, Ha.
Qed.

Lemma shr_1_nonneg (mrs : shr_record) :
  (0 <= shr_m mrs)%Z -> (0 <= shr_m (shr_1 mrs))%Z.
Proof.
  destruct mrs as [m r s]. simpl.
  destruct m as [|p|p]; simpl; intros Hm; try lia.
  destruct p; simpl; lia.
Qed.

Lemma shr_fexp_nonneg (m e : Z) (l : location) :
  (0 <= m)%Z -> (0 <= shr_m (fst (shr_fexp prec emax m e l)))%Z.
Proof.
  intros Hm. unfold shr_fexp, shr.
  assert (H0 : (0 <= shr_m (shr_record_of_loc m l))%Z).
  { destruct l as [|[ | | ]]; simpl; exact Hm. }
  destruct (fexp prec emax (Zdigits2 m + e) - e)%Z; simpl; try exact H0.
  apply (iter_pos_invariant (fun r => (0 <= shr_m r)%Z)); [apply shr_1_nonneg | exact H0].
Qed.

Lemma round_nearest_even_nonneg (m : Z) (l : location) :
  (0 <= m)%Z -> (0 <= round_nearest_even m l)%Z.
Proof.
  intros Hm. destruct l as [|[ | | ]]; simpl; try lia.
  destruct (Z.even m); lia.
Qed.

Lemma binary_round_aux_not_nan (sx : bool) (mx ex : Z) (lx : location) :
  (0 <= mx)%Z -> binary_round_aux prec emax sx mx ex lx <> S754_nan.
Proof.
  intros Hm. unfold binary_round_aux.
  pose proof (shr_fexp_nonneg mx ex lx Hm) as H1.
  destruct (shr_fexp prec emax mx ex lx) as [mrs' e']. simpl in H1.
  pose proof (shr_fexp_nonneg _ e' loc_Exact
                (round_nearest_even_nonneg _ (loc_of_shr_record mrs') H1)) as H2.
  destruct (shr_fexp prec emax (round_nearest_even (shr_m mrs') (loc_of_shr_record mrs')) e' loc_Exact)
    as [mrs'' e'']. simpl in H2.
  destruct (shr_m mrs'') as [|p|p]; try discriminate; try lia.
  destruct (e'' <=? emax - prec)%Z; discriminate.
Qed.

Lemma SFmul_not_nan (x y : spec_float) :
  x <> S754_nan ->
  (exists s m e, y = S754_finite s m e) ->
  SFmul prec emax x y <> S754_nan.
Proof.
  intros Hx (s & m & e & ->).
  destruct x as [sx|sx| |sx mx ex]; simpl; try discriminate; try congruence.
  apply binary_round_aux_not_nan. lia.
Qed.

End Rounding_facts.

Section Binary64_facts.

Local Open Scope float_scope.

Lemma is_nan_false_iff (x : float) :
  is_nan x = false <-> Prim2SF x <> S754_nan.
Proof.
  unfold is_nan. rewrite FloatAxioms.eqb_spec. unfold SFeqb. split.
  - intros Hx Hn. rewrite Hn in Hx. discriminate.
  - intros Hx. rewrite (SFcompare_refl _ Hx). reflexivity.
Qed.

Lemma leb_not_nan_l (x y : float) : (x <=? y) = true -> is_nan x = false.
Proof.
  rewrite FloatAxioms.leb_spec. intros Hle. apply is_nan_false_iff. intros Hn.
  rewrite Hn in Hle. discriminate.
Qed.

Lemma ltb_leb (x y : float) : (x <? y) = true -> (x <=? y) = true.
Proof.
  rewrite FloatAxioms.ltb_spec, FloatAxioms.leb_spec. unfold SFltb, SFleb.
  destruct (SFcompare (Prim2SF x) (Prim2SF y)) as [[ | | ]|]; congruence.
Qed.

Lemma SFcompare_None (x y : spec_float) :
  SFcompare x y = None -> x = S754_nan \/ y = S754_nan.
Proof.
  destruct x as [s|s| |s m e], y as [s'|s'| |s' m' e']; simpl; auto; discriminate.
Qed.

(** Among numbers, [x < y] fails only when [y <= x]. *)
Lemma not_ltb_leb (x y : float) :
  is_nan x = false -> is_nan y = false ->
  (x <? y) = false -> (y <=? x) = true.
Proof.
  intros Hx Hy Hlt.
  apply is_nan_false_iff in Hx. apply is_nan_false_iff in Hy.
  rewrite FloatAxioms.ltb_spec in Hlt. rewrite FloatAxioms.leb_spec.
  unfold SFltb in Hlt. unfold SFleb.
  rewrite (SFcompare_antisym (Prim2SF x) (Prim2SF y)).
  destruct (SFcompare (Prim2SF x) (Prim2SF y)) as [[ | | ]|] eqn:Hc;
    simpl; try reflexivity; try discriminate.
  destruct (SFcompare_None _ _ Hc); contradiction.
Qed.

Lemma mul_not_nan (x y : float) :
  is_nan x = false ->
  (exists s m e, Prim2SF y = S754_finite s m e) ->
  is_nan (x * y) = false.
Proof.
  intros Hx Hy. apply is_nan_false_iff. rewrite FloatAxioms.mul_spec.
  apply SFmul_not_nan; [apply is_nan_false_iff, Hx | exact Hy].
Qed.

Lemma Math_min_upper (a x : float) :
  is_nan a = false -> is_nan x = false ->
  is_nan (JS.Math_min a x) = false /\ (JS.Math_min a x <=? a) = true.
Proof.
  intros Ha Hx. unfold JS.Math_min. rewrite Ha, Hx. simpl.
  assert (Haa : (a <=? a) = true).
  { rewrite FloatAxioms.leb_spec. unfold SFleb.
    rewrite SFcompare_refl by (apply is_nan_false_iff, Ha). reflexivity. }
  destruct (a <? x) eqn:H1; [now split|].
  destruct (x <? a) eqn:H2; [split; [exact Hx | apply ltb_leb, H2]|].
  destruct (get_sign a); [now split|].
  split; [exact Hx | apply not_ltb_leb; assumption].
Qed.

Lemma Math_max_lower (a y : float) :
  is_nan a = false -> is_nan y = false ->
  is_nan (JS.Math_max a y) = false /\ (a <=? JS.Math_max a y) = true.
Proof.
  intros Ha Hy. unfold JS.Math_max. rewrite Ha, Hy. simpl.
  assert (Haa : (a <=? a) = true).
  { rewrite FloatAxioms.leb_spec. unfold SFleb.
    rewrite SFcompare_refl by (apply is_nan_false_iff, Ha). reflexivity. }
  destruct (a <? y) eqn:H1; [split; [exact Hy | apply ltb_leb, H1]|].
  destruct (y <? a) eqn:H2; [now split|].
  destruct (get_sign a); [|now split].
  split; [exact Hy | apply not_ltb_leb; assumption].
Qed.

(** [Math.max(a, y)] stays below a bound that both arguments respect. *)
Lemma Math_max_upper (a y b : float) :
  is_nan a = false -> is_nan y = false ->
  (a <=? b) = true -> (y <=? b) = true ->
  (JS.Math_max a y <=? b) = true.
Proof.
  intros Ha Hy Hab Hyb. unfold JS.Math_max. rewrite Ha, Hy. simpl.
  destruct (a <? y); [exact Hyb|].
  destruct (y <? a); [exact Hab|].
  destruct (get_sign a); assumption.
Qed.

Lemma wheel_zoom_in_range (deltaY zoom : float) :
  is_nan zoom = false ->
  (0.1 <=? wheel_zoom deltaY zoom) = true /\
  (wheel_zoom deltaY zoom <=? 10) = true.
Proof.
  intros Hz. unfold wheel_zoom.
  set (zoomFactor := if 0 <? deltaY then 0.9 else 1.1).
  assert (Hm : is_nan (zoom * zoomFactor) = false).
  { apply mul_not_nan; [exact Hz|].
    unfold zoomFactor. destruct (0 <? deltaY); vm_compute; eauto. }
  destruct (Math_min_upper 10 (zoom * zoomFactor) eq_refl Hm) as [Hn Hu].
  destruct (Math_max_lower 0.1 _ eq_refl Hn) as [_ Hl].
  split; [exact Hl|].
  apply Math_max_upper; [reflexivity | exact Hn | reflexivity | exact Hu].
Qed.

(** ** Positive finite numbers *)








End Binary64_facts.

(* ================================================================== *)
(** * The escape-time loop *)
(* ================================================================== *)

Section Escape_time_facts.

Context {F : Type} `{ShaderArith F}.

Lemma escape_time_bounds (budget : nat) (c z : vec2 F) :
  (0 <= escape_time budget c z <= Z.of_nat budget)%Z.
Proof.
  revert z. induction budget as [|b IH]; intros z.
  - simpl. lia.
  - cbn [escape_time]. destruct (escaped z); [lia|].
    specialize (IH (julia_step c z)). lia.
Qed.

(** No point of the orbit before the escape time has escaped. *)
Lemma escape_time_before (budget : nat) (c z : vec2 F) (k : nat) :
  (Z.of_nat k < escape_time budget c z)%Z -> escaped (orbit c z k) = false.
Proof.
  revert z k. induction budget as [|b IH]; intros z k Hk.
  - simpl in Hk. lia.
  - cbn [escape_time] in Hk. destruct (escaped z) eqn:Hz; [lia|].
    destruct k as [|k]; [exact Hz|].
    cbn [orbit]. apply IH. lia.
Qed.

(** When the count stops short of the budget, the point has escaped. *)
Lemma escape_time_stop (budget : nat) (c z : vec2 F) :
  (escape_time budget c z < Z.of_nat budget)%Z ->
  escaped (orbit c z (Z.to_nat (escape_time budget c z))) = true.
Proof.
  revert z. induction budget as [|b IH]; intros z Hlt.
  - simpl in Hlt. lia.
  - cbn [escape_time] in *. destruct (escaped z) eqn:Hz; [exact Hz|].
    pose proof (escape_time_bounds b c (julia_step c z)) as Hb.
    replace (Z.to_nat (1 + escape_time b c (julia_step c z)))
      with (S (Z.to_nat (escape_time b c (julia_step c z)))) by lia.
    cbn [orbit]. apply IH. lia.
Qed.

(** The loop, from any value of its counters, counts the escape time of
    the budget that the two bounds leave. *)
Lemma julia_loop_spec (fuel : nat) (i N : Z) (c z : vec2 F) (iterations : Z) :
  let k := escape_time (Nat.min fuel (Z.to_nat (N - i))) c z in
  julia_loop fuel i N c z iterations = (orbit c z (Z.to_nat k), (iterations + k)%Z).
Proof.
  revert i z iterations. induction fuel as [|fuel IH]; intros i z iterations.
  - simpl. rewrite Z.add_0_r. reflexivity.
  - cbn [julia_loop]. destruct (N <=? i)%Z eqn:HN.
    + apply Z.leb_le in HN.
      replace (Z.to_nat (N - i)) with O by lia.
      rewrite Nat.min_0_r. simpl. rewrite Z.add_0_r. reflexivity.
    + apply Z.leb_gt in HN.
      replace (Z.to_nat (N - i)) with (S (Z.to_nat (N - (i + 1)))) by lia.
      rewrite <- Nat.succ_min_distr. cbn [escape_time].
      destruct (escaped z) eqn:Hz.
      * simpl. rewrite Z.add_0_r. reflexivity.
      * rewrite IH. cbv zeta.
        set (k := escape_time _ c (julia_step c z)).
        pose proof (escape_time_bounds
                      (Nat.min fuel (Z.to_nat (N - (i + 1)))) c (julia_step c z)) as Hb.
        fold k in Hb.
        replace (Z.to_nat (1 + k)) with (S (Z.to_nat k)) by lia.
        cbn [orbit]. f_equal. lia.
Qed.

Lemma julia_iterations_spec (N : Z) (c z : vec2 F) :
  julia_iterations N c z = spec_escape_time (Z.min N 500) c z.
Proof.
  unfold julia_iterations, spec_escape_time.
  rewrite julia_loop_spec. cbv zeta. cbn [snd].
  rewrite Z.sub_0_r, Z.add_0_l.
  f_equal. unfold LOOP_BOUND. lia.
Qed.

End Escape_time_facts.

(** C1 (amended): for every arithmetic, uniforms and texture coordinate,
    the loop applies [z <- z^2 + c], with real part [x^2 - y^2 + c.x] and
    imaginary part [2 x y + c.y], from the mapped coordinate, and its count
    is the escape time of that orbit with the budget [min N 500]: no earlier
    point of the orbit has escaped, and the count stops short of the budget
    only at an escaped point.  It lies between 0 and 500, and is at most [N]
    when [N] is not negative. *)
Theorem escape_count_bounded_by_ceiling
  {F : Type} `{ShaderArith F} (u : Uniforms F) (uv : vec2 F) :
  let N := u_max_iterations u in
  let c := u_julia_c u in
  let z0 := map_to_plane u uv in
  let n := julia_iterations N c z0 in
  (forall z k,
      orbit c z (S k)
      = orbit c (Vec2 (fadd (fsub (fmul (vx z) (vx z)) (fmul (vy z) (vy z))) (vx c))
                      (fadd (fmul (fmul (lit 2.0) (vx z)) (vy z)) (vy c))) k) /\
  n = spec_escape_time (Z.min N 500) c z0 /\
  (0 <= n <= 500)%Z /\
  (0 <= N -> n <= N)%Z /\
  julia_loop LOOP_BOUND 0 N c z0 0 = (orbit c z0 (Z.to_nat n), n) /\
  (forall k, (Z.of_nat k < n)%Z -> escaped (orbit c z0 k) = false) /\
  ((0 <= n < Z.min N 500)%Z -> escaped (orbit c z0 (Z.to_nat n)) = true).
Proof.
  intros N c z0 n.
  assert (Hn : n = spec_escape_time (Z.min N 500) c z0)
    by apply julia_iterations_spec.
  pose proof (escape_time_bounds (Z.to_nat (Z.min N 500)) c z0) as Hb.
  fold (spec_escape_time (Z.min N 500) c z0) in Hb. rewrite <- Hn in Hb.
  split; [reflexivity|].
  split; [exact Hn|]. split; [lia|]. split; [lia|].
  split; [|split].
  - pose proof (julia_loop_spec LOOP_BOUND 0 N c z0 0) as Hl. cbv zeta in Hl.
    rewrite Hl. unfold n. rewrite julia_iterations_spec. unfold spec_escape_time.
    rewrite Z.sub_0_r, Z.add_0_l.
    replace (Nat.min LOOP_BOUND (Z.to_nat N)) with (Z.to_nat (Z.min N 500))
      by (unfold LOOP_BOUND; lia).
    reflexivity.
  - intros k Hk. rewrite Hn in Hk. apply (escape_time_before _ _ _ _ Hk).
  - intros Hlt. rewrite Hn in *. apply escape_time_stop.
    unfold spec_escape_time in *. lia.
Qed.

Lemma escape_count_bounded_by_ceiling_witness :
  let u : Uniforms Q :=
    {| u_julia_c := Vec2 (-0.7) 0.27015; u_zoom := 1; u_offset := Vec2 0 0;
       u_max_iterations := 100; u_resolution := Vec2 800 600 |} in
  let z0 := map_to_plane u (vertex_texCoord (pixel_position 800 600 0 0)) in
  julia_iterations 100 (u_julia_c u) z0 = 1%Z /\
  (julia_iterations 100 (u_julia_c u) z0 <= 100)%Z /\
  escaped z0 = false /\
  escaped (orbit (u_julia_c u) z0 1) = true.
Proof.
  intros u z0.
  pose proof (escape_count_bounded_by_ceiling u
                (vertex_texCoord (pixel_position 800 600 0 0))) as Hc.
  cbv zeta in Hc. change (u_max_iterations u) with 100%Z in Hc. fold z0 in Hc.
  assert (Hn : julia_iterations 100 (u_julia_c u) z0 = 1%Z)
    by (vm_compute; reflexivity).
  rewrite Hn in Hc.
  destruct Hc as (_ & _ & _ & Hle & _ & Hbefore & Hstop).
  split; [exact Hn|]. split; [rewrite Hn; apply Hle; lia|].
  split; [apply (Hbefore O); reflexivity|].
  apply Hstop. lia.
Defined.

(** C1 as stated fails above the constant loop bound: with
    [maxIterations = 501], [c = 0] and the centre of the canvas, the orbit
    stays at the origin, the specification's count is 501, and the shader
    stops at 500 at a point that has not escaped. *)
Lemma escape_count_stops_at_loop_bound :
  let u : Uniforms Q :=
    {| u_julia_c := Vec2 0 0; u_zoom := 1; u_offset := Vec2 0 0;
       u_max_iterations := 501; u_resolution := Vec2 800 600 |} in
  let z0 := map_to_plane u (Vec2 (1 # 2) (1 # 2)) in
  julia_iterations 501 (u_julia_c u) z0 = 500%Z /\
  spec_escape_time 501 (u_julia_c u) z0 = 501%Z /\
  escaped (orbit (u_julia_c u) z0 500) = false.
Proof. vm_compute. repeat split. Qed.

(** C2: for every arithmetic, uniforms and texture coordinate, a fragment
    whose iteration count equals [u_max_iterations] gets the colour
    (0, 0, 0, 1). *)
Theorem in_set_pixel_is_black
  {F : Type} `{ShaderArith F} (u : Uniforms F) (uv : vec2 F) :
  julia_iterations (u_max_iterations u) (u_julia_c u) (map_to_plane u uv)
    = u_max_iterations u ->
  fragment_main u uv = Vec4 (Vec3 (lit 0.0) (lit 0.0) (lit 0.0)) (lit 1.0).
Proof.
  intros Hn. unfold fragment_main, shade. rewrite Hn, Z.eqb_refl. reflexivity.
Qed.

Lemma in_set_pixel_is_black_witness :
  let u : Uniforms Q :=
    {| u_julia_c := Vec2 0 0; u_zoom := 1; u_offset := Vec2 0 0;
       u_max_iterations := 100; u_resolution := Vec2 800 600 |} in
  fragment_main u (Vec2 (1 # 2) (1 # 2))
    = Vec4 (Vec3 (lit 0.0) (lit 0.0) (lit 0.0)) (lit 1.0).
Proof.
  intros u. apply (in_set_pixel_is_black u (Vec2 (1 # 2) (1 # 2))).
  vm_compute. reflexivity.
Defined.

(** The initial parameters at the origin of the plane, in binary64: the
    orbit escapes after 96 iterations. *)
Example initial_parameters_at_origin :
  @julia_iterations float binary64 100
    (Vec2 (-0.7)%float 0.27015%float) (Vec2 0%float 0%float) = 96%Z.
Proof. vm_compute. reflexivity. Qed.

(** Above the loop bound a point that never escapes is not black: its
    count stops at 500 and differs from [u_max_iterations]. *)
Example bounded_point_not_black_above_loop_bound :
  let u : Uniforms Q :=
    {| u_julia_c := Vec2 0 0; u_zoom := 1; u_offset := Vec2 0 0;
       u_max_iterations := 501; u_resolution := Vec2 800 600 |} in
  fragment_main u (Vec2 (1 # 2) (1 # 2))
  = Vec4 (Vec3 1 (42101 # 41750) (41867 # 83500)) 1.
Proof. vm_compute. reflexivity. Qed.

(* ================================================================== *)
(** * The shader in exact arithmetic *)
(* ================================================================== *)

Section Exact_arithmetic.

Local Open Scope Q_scope.

Lemma exact_fltb_true (a b : Q) : fltb a b = true <-> a < b.
Proof.
  cbn [fltb exactQ]. rewrite negb_true_iff. split.
  - intros Hf. apply Qnot_le_lt. intros Hle.
    apply Qle_bool_iff in Hle. congruence.
  - intros Hlt. destruct (Qle_bool b a) eqn:Hb; [|reflexivity].
    apply Qle_bool_iff in Hb. exfalso. apply (Qlt_not_le _ _ Hlt Hb).
Qed.

Lemma exact_fltb_false (a b : Q) : fltb a b = false <-> b <= a.
Proof.
  cbn [fltb exactQ]. rewrite negb_false_iff. apply Qle_bool_iff.
Qed.

(** In exact arithmetic [mix] is the linear blend [x + (y - x) a]. *)
Lemma mix1_lerp (x y a s : Q) : a == s -> mix1 x y a = lerp x y s.
Proof.
  intros Has. unfold mix1, lerp. cbn [fadd fsub fmul lit exactQ].
  apply Qred_complete. rewrite !Qred_correct, Has. ring.
Qed.

Lemma mix_lerp3 (x y : vec3 Q) (a s : Q) : a == s -> mix x y a = lerp3 x y s.
Proof.
  intros Has. unfold mix, lerp3. now rewrite !(mix1_lerp _ _ a s Has).
Qed.

Lemma gradient_first (t : Q) :
  t < 0.33 -> gradient t = lerp3 color1 color2 (t * 3).
Proof.
  intros Ht. unfold gradient.
  assert (H1 : fltb t (lit 0.33) = true).
  { apply exact_fltb_true. cbn [lit exactQ]. now rewrite Qred_correct. }
  rewrite H1. apply mix_lerp3. cbn [fmul lit exactQ].
  rewrite !Qred_correct. ring.
Qed.

Lemma gradient_second (t : Q) :
  0.33 <= t -> t < 0.66 -> gradient t = lerp3 color2 color3 ((t - 0.33) * 3).
Proof.
  intros Hl Hu. unfold gradient.
  assert (H1 : fltb t (lit 0.33) = false).
  { apply exact_fltb_false. cbn [lit exactQ]. now rewrite Qred_correct. }
  assert (H2 : fltb t (lit 0.66) = true).
  { apply exact_fltb_true. cbn [lit exactQ]. now rewrite Qred_correct. }
  rewrite H1, H2. apply mix_lerp3. cbn [fmul fsub lit exactQ].
  rewrite !Qred_correct. ring.
Qed.

Lemma gradient_third (t : Q) :
  0.66 <= t -> gradient t = lerp3 color3 color4 ((t - 0.66) * 3).
Proof.
  intros Hl. unfold gradient.
  assert (H1 : fltb t (lit 0.33) = false).
  { apply exact_fltb_false. cbn [lit exactQ]. rewrite Qred_correct.
    apply Qle_trans with (2 := Hl). discriminate. }
  assert (H2 : fltb t (lit 0.66) = false).
  { apply exact_fltb_false. cbn [lit exactQ]. now rewrite Qred_correct. }
  rewrite H1, H2. apply mix_lerp3. cbn [fmul fsub lit exactQ].
  rewrite !Qred_correct. ring.
Qed.

Lemma lerp3_proper (a b : vec3 Q) (s s' : Q) :
  s == s' -> lerp3 a b s = lerp3 a b s'.
Proof.
  intros Hs. unfold lerp3, lerp.
  f_equal; apply Qred_complete; rewrite Hs; reflexivity.
Qed.

Lemma exact_ratio_bounds (n N : Z) :
  (0 <= n < N)%Z -> 0 <= inject_Z n / inject_Z N /\ inject_Z n / inject_Z N < 1.
Proof.
  intros Hn.
  assert (HN : 0 < inject_Z N)
    by (change (inject_Z 0 < inject_Z N); rewrite <- Zlt_Qlt; lia).
  split.
  - apply Qle_shift_div_l; [exact HN|]. rewrite Qmult_0_l.
    change (inject_Z 0 <= inject_Z n). rewrite <- Zle_Qle. lia.
  - apply Qlt_shift_div_r; [exact HN|]. rewrite Qmult_1_l.
    rewrite <- Zlt_Qlt. lia.
Qed.

(** The count of the loop is never negative. *)
Lemma julia_iterations_nonneg {F : Type} `{ShaderArith F} (N : Z) (c z : vec2 F) :
  (0 <= julia_iterations N c z)%Z.
Proof.
  unfold julia_iterations. generalize LOOP_BOUND. intros fuel.
  assert (Hgen : forall i z0 k, (0 <= k)%Z -> (0 <= snd (julia_loop fuel i N c z0 k))%Z).
  { induction fuel as [|fuel IH]; intros i z0 k Hk; cbn [julia_loop].
    - exact Hk.
    - destruct (N <=? i)%Z; [exact Hk|].
      destruct (escaped z0); [exact Hk|]. apply IH. lia. }
  apply Hgen. lia.
Qed.

End Exact_arithmetic.

(** C3 (amended): in exact arithmetic, a fragment whose count [n] is below
    [N = u_max_iterations] has alpha 1 and, with [t = n / N] in [0, 1), the
    colour that blends two neighbouring anchors with weight
    [3 (t - t_i)]: dark blue and cyan from [t_i = 0] while [t < 0.33], cyan
    and pink-red from [t_i = 0.33] while [t < 0.66], pink-red and yellow from
    [t_i = 0.66] after that.  A count of 0 gives dark blue itself. *)
Theorem escaped_pixel_gradient (u : Uniforms Q) (uv : vec2 Q) :
  let N := u_max_iterations u in
  let n := julia_iterations N (u_julia_c u) (map_to_plane u uv) in
  let t := (inject_Z n / inject_Z N)%Q in
  let px := fragment_main u uv in
  (n < N)%Z ->
  (0 <= t /\ t < 1)%Q /\
  alpha px = 1%Q /\
  ((t < 0.33)%Q -> rgb px = lerp3 color1 color2 (t * 3)) /\
  ((0.33 <= t)%Q -> (t < 0.66)%Q -> rgb px = lerp3 color2 color3 ((t - 0.33) * 3)) /\
  ((0.66 <= t)%Q -> rgb px = lerp3 color3 color4 ((t - 0.66) * 3)) /\
  (n = 0%Z -> rgb px = color1 /\ color1 = Vec3 (1 # 10) (1 # 5) (1 # 2)).
Proof.
  intros N n t px Hlt.
  pose proof (julia_iterations_nonneg N (u_julia_c u) (map_to_plane u uv)) as H0.
  fold n in H0.
  assert (Hpx : px = Vec4 (gradient (Qred t)) 1%Q).
  { unfold px, fragment_main, shade. fold N. fold n.
    destruct (n =? N)%Z eqn:Heq; [apply Z.eqb_eq in Heq; lia|].
    reflexivity. }
  split; [apply exact_ratio_bounds; lia|].
  rewrite Hpx. cbn [alpha rgb].
  split; [reflexivity|]. split; [|split; [|split]].
  - intros Ht. rewrite gradient_first by (now rewrite Qred_correct).
    apply lerp3_proper. now rewrite Qred_correct.
  - intros Hl Hu. rewrite gradient_second by (now rewrite Qred_correct).
    apply lerp3_proper. now rewrite Qred_correct.
  - intros Hl. rewrite gradient_third by (now rewrite Qred_correct).
    apply lerp3_proper. now rewrite Qred_correct.
  - intros Hn. unfold t. rewrite Hn.
    assert (Hz : (inject_Z 0 / inject_Z N == 0)%Q) by (unfold Qdiv; ring).
    rewrite (Qred_complete _ _ Hz). vm_compute. split; reflexivity.
Qed.

Lemma escaped_pixel_gradient_witness :
  let u : Uniforms Q :=
    {| u_julia_c := Vec2 (-0.7) 0.27015; u_zoom := 1; u_offset := Vec2 0 0;
       u_max_iterations := 100; u_resolution := Vec2 800 600 |} in
  let uv := vertex_texCoord (pixel_position 800 600 0 0) in
  julia_iterations 100 (u_julia_c u) (map_to_plane u uv) = 1%Z /\
  rgb (fragment_main u uv) = lerp3 color1 color2 ((1 # 100) * 3) /\
  alpha (fragment_main u uv) = 1%Q.
Proof.
  intros u uv.
  destruct (escaped_pixel_gradient u uv) as (_ & Ha & H1 & _).
  - vm_compute. reflexivity.
  - split; [vm_compute; reflexivity|]. split; [|exact Ha].
    rewrite H1 by (vm_compute; reflexivity).
    vm_compute. reflexivity.
Defined.

(** C3 as stated fails: with the initial parameters on an 800 x 600
    canvas the bottom-left pixel escapes after one iteration, so
    [t = 1/100]; its colour is (53/500, 109/500, 64/125), while interpolation
    through anchors at 0, 0.33, 0.66 and 1.0 gives (7/66, 12/55, 169/330). *)
Lemma gradient_is_not_anchor_interpolation :
  let u : Uniforms Q :=
    {| u_julia_c := Vec2 (-0.7) 0.27015; u_zoom := 1; u_offset := Vec2 0 0;
       u_max_iterations := 100; u_resolution := Vec2 800 600 |} in
  let uv := vertex_texCoord (pixel_position 800 600 0 0) in
  julia_iterations 100 (u_julia_c u) (map_to_plane u uv) = 1%Z /\
  rgb (fragment_main u uv) = Vec3 (53 # 500) (109 # 500) (64 # 125) /\
  spec_gradient (1 # 100) = Vec3 (7 # 66) (12 # 55) (169 # 330) /\
  rgb (fragment_main u uv) <> spec_gradient (1 # 100).
Proof.
  vm_compute. repeat split. discriminate.
Qed.

(** Near [t = 1] the shader's weight [3 (t - 0.66)] exceeds 1: the colour
    lies beyond yellow, not between pink-red and yellow. *)
Example gradient_overshoots_yellow :
  rgb (@shade Q _ 499 500) = Vec3 1 (2521 # 2500) (2507 # 5000) /\
  (1 < c_g (rgb (@shade Q _ 499 500)))%Q.
Proof. vm_compute. split; reflexivity. Qed.

(** C4: in every arithmetic the plane coordinate is
    [((uv - 0.5) * 2.0) / zoom + offset] with its real component multiplied
    by [aspect = width / height]; and in exact arithmetic a step of [d]
    pixels to the right moves the real part by as much as a step of [d]
    pixels upwards moves the imaginary part, whatever the viewport. *)
Theorem map_to_plane_aspect_corrected :
  (forall (F : Type) (A : ShaderArith F) (u : Uniforms F) (uv : vec2 F),
      let aspect := fdiv (vx (u_resolution u)) (vy (u_resolution u)) in
      map_to_plane u uv =
      Vec2 (fmul (fadd (fdiv (fmul (fsub (vx uv) (lit 0.5)) (lit 2.0)) (u_zoom u))
                       (vx (u_offset u))) aspect)
           (fadd (fdiv (fmul (fsub (vy uv) (lit 0.5)) (lit 2.0)) (u_zoom u))
                 (vy (u_offset u)))) /\
  (forall (u : Uniforms Q) (uv : vec2 Q) (d : Q),
      let w := vx (u_resolution u) in
      let h := vy (u_resolution u) in
      ~ w == 0 -> ~ h == 0 ->
      vx (map_to_plane u (Vec2 (vx uv + d / w) (vy uv))) - vx (map_to_plane u uv)
      == vy (map_to_plane u (Vec2 (vx uv) (vy uv + d / h))) - vy (map_to_plane u uv)).
Proof.
  split; [reflexivity|].
  intros u uv d w h Hw Hh. unfold map_to_plane. fold w h.
  cbn [vx vy fadd fsub fmul fdiv lit exactQ].
  rewrite !Qred_correct.
  destruct (Qeq_dec (u_zoom u) 0) as [Hz|Hz].
  - unfold Qdiv. rewrite Hz. change (/ 0) with 0.
    field; repeat split; assumption.
  - field; repeat split; assumption.
Qed.

Lemma map_to_plane_aspect_corrected_witness :
  let u : Uniforms Q :=
    {| u_julia_c := Vec2 (-0.7) 0.27015; u_zoom := 1; u_offset := Vec2 0 0;
       u_max_iterations := 100; u_resolution := Vec2 800 600 |} in
  let uv : vec2 Q := Vec2 (1 # 4) (1 # 4) in
  (vx (map_to_plane u (Vec2 (vx uv + 1 / 800) (vy uv))) - vx (map_to_plane u uv)
   == vy (map_to_plane u (Vec2 (vx uv) (vy uv + 1 / 600))) - vy (map_to_plane u uv))%Q /\
  (vx (map_to_plane u (Vec2 (vx uv + 1 / 800) (vy uv))) - vx (map_to_plane u uv)
   == 1 # 300)%Q.
Proof.
  intros u uv.
  destruct map_to_plane_aspect_corrected as [_ Hshape].
  split.
  - apply (Hshape u uv 1%Q); vm_compute; discriminate.
  - vm_compute. reflexivity.
Defined.

(* ================================================================== *)
(** * Rendering *)
(* ================================================================== *)

Section Viewer_facts.

Context {F : Type} `{ShaderArith F}.
Local Open Scope float_scope.

Lemma render_exec (v : Viewer F) :
  exec render v =
  match gl v with
  | None => set_render_calls (S (render_calls v)) v
  | Some g => set_gl (Some (painted v g)) (set_render_calls (S (render_calls v)) v)
  end.
Proof.
  unfold render, exec, bind, modify, get, throw. cbn.
  destruct (gl v); reflexivity.
Qed.

(** With a context, [render] returns. *)
Lemma render_returns (v : Viewer F) (g : GL F) :
  gl v = Some g -> render v = (Returned tt, exec render v).
Proof.
  intros Hg. unfold exec, render, bind, modify, get, throw.
  cbn [gl set_render_calls fst snd]. rewrite Hg. reflexivity.
Qed.

(** [render] touches the context and the call counter, nothing else. *)
Lemma render_view_state (v : Viewer F) :
  view_state (exec render v) = view_state v.
Proof. rewrite render_exec. destruct (gl v); reflexivity. Qed.

Lemma render_calls_succ (v : Viewer F) :
  render_calls (exec render v) = S (render_calls v).
Proof. rewrite render_exec. destruct (gl v); reflexivity. Qed.

Lemma painted_framebuffer (v : Viewer F) (g : GL F) :
  program v = Some true -> gl_quad g = true ->
  gl_framebuffer (painted v g) = image_of (view_state v) /\
  gl_uniforms (painted v g) = uniforms_of v /\
  gl_current_program (painted v g) = true /\
  gl_quad (painted v g) = true /\
  gl_draws (painted v g) = S (gl_draws g).
Proof.
  intros Hp Hq. unfold painted. rewrite Hp. cbn. rewrite Hq. cbn.
  repeat split.
Qed.

Lemma render_initialised (v : Viewer F) :
  initialised v = true ->
  initialised (exec render v) = true /\
  displayed (exec render v) = Some (image_of (view_state v)).
Proof.
  unfold initialised, displayed. rewrite render_exec.
  destruct (gl v) as [g|]; [|discriminate].
  destruct (program v) as [[|]|] eqn:Hp; try discriminate.
  intros Hq. cbn [gl program set_gl set_render_calls option_map]. rewrite Hp.
  destruct (painted_framebuffer v g Hp Hq) as (Hfb & _ & _ & Hq' & _).
  rewrite Hq', Hfb. split; reflexivity.
Qed.

End Viewer_facts.

(** C7: for two initialised viewers with the same View State, whatever
    their contexts held before, [render] shows the same image, the one that
    [image_of] computes from the View State alone; [render] leaves the View
    State as it is, and a second call shows the same image again. *)
Theorem rendered_image_is_function_of_view_state
  {F : Type} `{ShaderArith F} (v w : Viewer F) :
  initialised v = true -> initialised w = true ->
  view_state v = view_state w ->
  displayed (exec render v) = Some (image_of (view_state v)) /\
  displayed (exec render w) = displayed (exec render v) /\
  view_state (exec render v) = view_state v /\
  displayed (exec render (exec render v)) = displayed (exec render v).
Proof.
  intros Hv Hw Hvw.
  destruct (render_initialised v Hv) as [Hv1 Hd].
  destruct (render_initialised w Hw) as [_ Hdw].
  destruct (render_initialised _ Hv1) as [_ Hd2].
  rewrite render_view_state in Hd2.
  repeat split.
  - exact Hd.
  - rewrite Hdw, Hd, Hvw. reflexivity.
  - apply render_view_state.
  - rewrite Hd2, Hd. reflexivity.
Qed.

Lemma rendered_image_is_function_of_view_state_witness :
  let v := @new_JuliaSetViewer float binary64 small_window in
  let w := set_zoom 1%float (@exec _ unit (@handle float binary64 (ZoomInput "2")) v) in
  displayed w <> displayed v /\
  displayed (@exec _ unit (@render float binary64) w)
    = displayed (@exec _ unit (@render float binary64) v).
Proof.
  intros v w.
  assert (Hv : @initialised float v = true) by (vm_compute; reflexivity).
  assert (Hw : @initialised float w = true) by (vm_compute; reflexivity).
  assert (Hvw : view_state v = view_state w) by (vm_compute; reflexivity).
  destruct (@rendered_image_is_function_of_view_state float binary64 v w Hv Hw Hvw)
    as (_ & Heq & _).
  split; [|exact Heq].
  vm_compute. discriminate.
Defined.

(* ================================================================== *)
(** * Event handlers *)
(* ================================================================== *)

Section Handlers.

Context {F : Type} `{ShaderArith F}.
Local Open Scope float_scope.

(** Each handler is a field update followed by [render]. *)
Lemma handle_exec (e : Event) (v : Viewer F) :
  exec (handle e) v =
  match e with
  | RealInput value => exec render (set_juliaReal (JS.parseFloat value) v)
  | ImagInput value => exec render (set_juliaImag (JS.parseFloat value) v)
  | ZoomInput value => exec render (set_zoom (JS.parseFloat value) v)
  | IterInput value => exec render (set_maxIterations (JS.parseInt value) v)
  | PresetClick data_real data_imag =>
      exec render (set_juliaImag (JS.parseFloat data_imag)
                     (set_juliaReal (JS.parseFloat data_real) v))
  | MouseDown clientX clientY =>
      set_lastMouseY clientY (set_lastMouseX clientX (set_isDragging true v))
  | MouseMove clientX clientY =>
      if isDragging v then
        exec render
          (set_lastMouseY clientY
             (set_lastMouseX clientX
                (set_offsetY (offsetY v + (clientY - lastMouseY v)
                                           / JS.of_Z (canvas_height v) * 2.0 / zoom v)
                   (set_offsetX (offsetX v - (clientX - lastMouseX v)
                                              / JS.of_Z (canvas_width v) * 2.0 / zoom v)
                      v))))
      else v
  | MouseUp => set_isDragging false v
  | Wheel deltaY => exec render (set_zoom (wheel_zoom deltaY (zoom v)) v)
  | WindowResize width height ratio => exec (resizeCanvas width height ratio) v
  | CogClick => set_controlsVisible (negb (controlsVisible v)) v
  | CloseClick => set_controlsVisible false v
  | CanvasClick =>
      if controlsVisible v && negb (isDragging v)
      then set_controlsVisible false v else v
  end.
Proof.
  destruct e; try reflexivity.
  - unfold exec, handle, bind, get.
    destruct (isDragging v); reflexivity.
  - unfold exec, handle, bind, get.
    destruct (controlsVisible v && negb (isDragging v)); reflexivity.
Qed.

End Handlers.

(** C10: a [mousemove] while [isDragging] is false leaves the viewer, and
    with it the View State, exactly as it was; while [isDragging] is true it
    leaves [juliaReal], [juliaImag], [zoom] and [maxIterations] (and the
    canvas size, the drag flag and the panel flag) as they were, sets the
    last mouse position to the event's, and moves the offset by the scaled
    mouse displacement. *)
Theorem mousemove_frame
  {F : Type} `{ShaderArith F} (v : Viewer F) (clientX clientY : float) :
  let v' := exec (handle (MouseMove clientX clientY)) v in
  (isDragging v = false -> v' = v) /\
  (isDragging v = true ->
   juliaReal v' = juliaReal v /\ juliaImag v' = juliaImag v /\
   zoom v' = zoom v /\ maxIterations v' = maxIterations v /\
   canvas_width v' = canvas_width v /\ canvas_height v' = canvas_height v /\
   isDragging v' = true /\ controlsVisible v' = controlsVisible v /\
   lastMouseX v' = clientX /\ lastMouseY v' = clientY /\
   offsetX v' = (offsetX v
                 - (clientX - lastMouseX v) / JS.of_Z (canvas_width v) * 2.0 / zoom v)%float /\
   offsetY v' = (offsetY v
                 + (clientY - lastMouseY v) / JS.of_Z (canvas_height v) * 2.0 / zoom v)%float).
Proof.
  intros v'. unfold v'. rewrite handle_exec. split; intros Hd; rewrite Hd.
  - reflexivity.
  - rewrite render_exec.
    cbn [gl set_lastMouseY set_lastMouseX set_offsetY set_offsetX].
    destruct (gl v); cbn; rewrite ?Hd; repeat split; reflexivity.
Qed.

Lemma mousemove_frame_witness :
  let v := @new_JuliaSetViewer float binary64 small_window in
  let d := @exec _ unit (@handle float binary64 (MouseDown 10 10)) v in
  @exec _ unit (@handle float binary64 (MouseMove 13 12)) v = v /\
  zoom (@exec _ unit (@handle float binary64 (MouseMove 13 12)) d) = zoom d /\
  offsetX (@exec _ unit (@handle float binary64 (MouseMove 13 12)) d) = (-2)%float /\
  offsetY (@exec _ unit (@handle float binary64 (MouseMove 13 12)) d) = 2%float.
Proof.
  intros v d.
  destruct (@mousemove_frame float binary64 v 13%float 12%float) as [Hidle _].
  destruct (@mousemove_frame float binary64 d 13%float 12%float) as [_ Hdrag].
  split; [apply Hidle; vm_compute; reflexivity|].
  destruct Hdrag as (_ & _ & Hz & _ & _ & _ & _ & _ & _ & _ & Hx & Hy);
    [vm_compute; reflexivity|].
  split; [exact Hz|]. split.
  - rewrite Hx. vm_compute. reflexivity.
  - rewrite Hy. vm_compute. reflexivity.
Defined.

(** C8: a click on a preset button whose attributes are the literals
    "-0.4" and "0.6" sets [juliaReal] to the number -0.4 and [juliaImag] to
    the number 0.6, leaves [zoom], the offset and [maxIterations] as they
    were, and calls [render] once, which issues one draw call. *)
Theorem preset_click_sets_c_and_renders_once
  {F : Type} `{ShaderArith F} (v : Viewer F) :
  listeners v = true ->
  let v' := dispatch v (PresetClick "-0.4" "0.6") in
  juliaReal v' = (-0.4)%float /\ juliaImag v' = 0.6%float /\
  zoom v' = zoom v /\ offsetX v' = offsetX v /\ offsetY v' = offsetY v /\
  maxIterations v' = maxIterations v /\
  render_calls v' = S (render_calls v) /\
  (forall g, gl v = Some g ->
     exists g', gl v' = Some g' /\ gl_draws g' = S (gl_draws g)).
Proof.
  intros Hl v'. unfold v', dispatch. cbn [listening]. rewrite Hl.
  rewrite handle_exec, render_exec.
  cbn [gl set_juliaImag set_juliaReal].
  assert (Hr : JS.parseFloat "-0.4" = (-0.4)%float) by (vm_compute; reflexivity).
  assert (Hi : JS.parseFloat "0.6" = 0.6%float) by (vm_compute; reflexivity).
  rewrite Hr, Hi.
  destruct (gl v) as [g|]; cbn; repeat split; try reflexivity.
  - intros g0 Hg. injection Hg as <-. eexists. split; reflexivity.
  - intros g0 Hg. discriminate.
Qed.

Lemma preset_click_sets_c_and_renders_once_witness :
  let v := @new_JuliaSetViewer float binary64 small_window in
  let v' := @dispatch float binary64 v (PresetClick "-0.4" "0.6") in
  juliaReal v' = (-0.4)%float /\ juliaImag v' = 0.6%float /\
  render_calls v' = 2%nat.
Proof.
  intros v v'.
  destruct (@preset_click_sets_c_and_renders_once float binary64 v)
    as (Hr & Hi & _ & _ & _ & _ & Hn & _); [vm_compute; reflexivity|].
  split; [exact Hr|]. split; [exact Hi|].
  fold v' in Hn. rewrite Hn. vm_compute. reflexivity.
Defined.

(* ================================================================== *)
(** * Initialisation *)
(* ================================================================== *)

Section Initialisation.

Context {F : Type} `{ShaderArith F}.
Local Open Scope float_scope.
Local Open Scope string_scope.

Local Ltac finish :=
  cbn; repeat split; try reflexivity;
  match goal with
  | Hg : _ = Some _ |- _ => first [discriminate Hg | injection Hg as <-; reflexivity]
  end.

Lemma init_failed (b : Browser) (message : string) :
  init_failure b = Some message ->
  exists v : Viewer F,
    new_JuliaSetViewer b
      = set_loading_show true
          (set_loading_text ("WebGL initialization failed: " ++ message) v) /\
    listeners v = false /\ ui_listeners v = false /\ render_calls v = 0%nat /\
    view_state v = view_state (sized b : Viewer F) /\
    (forall g, gl v = Some g ->
       gl_current_program g = false /\ gl_framebuffer g = [] /\ gl_draws g = 0%nat).
Proof.
  unfold init_failure, new_JuliaSetViewer, init, try_catch, exec.
  unfold resizeCanvas, createShaderProgram, compileShader, setupGeometry,
    setupEventListeners, setupUIEventListeners, showError,
    bind, modify, get, ret, throw.
  cbn [gl constructed set_canvas_width set_canvas_height set_gl fst snd].
  destruct (webgl b || experimental_webgl b); cbn [negb].
  2:{ intros Hm. injection Hm as <-. eexists. split; [reflexivity|]. finish. }
  destruct (vertex_log b) as [lv|].
  { intros Hm. injection Hm as <-. eexists. split; [reflexivity|].
    finish. }
  destruct (fragment_log b) as [lf|].
  { intros Hm. injection Hm as <-. eexists. split; [reflexivity|].
    finish. }
  destruct (link_log b) as [ll|]; [|discriminate].
  intros Hm. injection Hm as <-. eexists. split; [reflexivity|].
  finish.
Qed.

Lemma init_succeeded (b : Browser) :
  init_failure b = None ->
  new_JuliaSetViewer b
  = exec render
      (set_loading_show false
         (set_ui_listeners true
            (set_listeners true
               (set_gl (Some (bind_quad (fresh_context (canvas_width (sized b : Viewer F))
                                                       (canvas_height (sized b : Viewer F)))))
                  (set_program (Some true)
                     (set_gl (Some (fresh_context (canvas_width (sized b : Viewer F))
                                                  (canvas_height (sized b : Viewer F))))
                        (sized b))))))).
Proof.
  intros Hok.
  assert (Hctx : webgl b || experimental_webgl b = true).
  { unfold init_failure in Hok.
    destruct (webgl b || experimental_webgl b); [reflexivity|discriminate]. }
  assert (Hlogs : vertex_log b = None /\ fragment_log b = None /\ link_log b = None).
  { unfold init_failure in Hok. rewrite Hctx in Hok. cbn [negb] in Hok.
    destruct (vertex_log b); [discriminate|].
    destruct (fragment_log b); [discriminate|].
    destruct (link_log b); [discriminate|]. auto. }
  destruct Hlogs as (Hv & Hf & Hl).
  unfold new_JuliaSetViewer, init, try_catch, exec.
  unfold resizeCanvas, createShaderProgram, compileShader, setupGeometry,
    setupEventListeners, setupUIEventListeners, bind, modify, get, ret, throw.
  rewrite Hctx, Hv, Hf, Hl.
  cbn [gl constructed set_canvas_width set_canvas_height set_gl set_program
       set_listeners set_ui_listeners set_loading_show fst snd].
  fold (sized b : Viewer F).
  erewrite render_returns by reflexivity. reflexivity.
Qed.

(** Without listeners no event reaches the viewer. *)
Lemma run_without_listeners (events : list Event) (v : Viewer F) :
  listeners v = false -> ui_listeners v = false -> run events v = v.
Proof.
  intros Hl Hu. induction events as [|e events IH]; [reflexivity|].
  unfold run in *. cbn [fold_left].
  assert (Hd : dispatch v e = v).
  { unfold dispatch. destruct e; cbn [listening]; rewrite ?Hl, ?Hu; reflexivity. }
  rewrite Hd. exact IH.
Qed.

End Initialisation.

(** C9: when [init] fails, because no context is available or a shader
    does not compile or the program does not link, the loading element shows
    "WebGL initialization failed: " followed by the message of the error,
    [render] has not been called and nothing has been drawn, and no listener
    is registered, so that no later event changes anything: there is no
    retry and no other renderer.  When none of these failures occurs, [init]
    shows no error and renders once. *)
Theorem init_failure_is_fatal
  {F : Type} `{ShaderArith F} (b : Browser) :
  let v := new_JuliaSetViewer b in
  (forall message,
      init_failure b = Some message ->
      loading_show v = true /\
      loading_text v = ("WebGL initialization failed: " ++ message)%string /\
      render_calls v = 0%nat /\
      (forall g, gl v = Some g -> gl_framebuffer g = [] /\ gl_draws g = 0%nat) /\
      listeners v = false /\ ui_listeners v = false /\
      (forall events, run events v = v)) /\
  (init_failure b = None ->
   loading_show v = false /\ loading_text v = page_loading_text b /\
   initialised v = true /\ listeners v = true /\ ui_listeners v = true /\
   render_calls v = 1%nat).
Proof.
  intros v. split.
  - intros message Hm.
    destruct (init_failed b message Hm) as (v0 & Hv & Hl & Hu & Hr & _ & Hg).
    fold v in Hv.
    assert (Hl' : listeners v = false) by (rewrite Hv; exact Hl).
    assert (Hu' : ui_listeners v = false) by (rewrite Hv; exact Hu).
    split; [rewrite Hv; reflexivity|].
    split; [rewrite Hv; reflexivity|].
    split; [rewrite Hv; exact Hr|].
    split; [|split; [exact Hl'|split; [exact Hu'|]]].
    + intros g Hgl. rewrite Hv in Hgl. cbn in Hgl.
      destruct (Hg g Hgl) as (_ & Hfb & Hd). split; assumption.
    + intros events. apply run_without_listeners; assumption.
  - intros Hok. unfold v. rewrite (init_succeeded b Hok).
    set (m := set_loading_show false _).
    rewrite render_exec. cbn [gl m set_loading_show set_ui_listeners set_listeners set_gl].
    repeat split; reflexivity.
Qed.

Lemma init_failure_is_fatal_witness :
  let b := {| innerWidth := 800; innerHeight := 600; devicePixelRatio := 1;
              webgl := false; experimental_webgl := false;
              vertex_log := None; fragment_log := None; link_log := None;
              page_loading_show := true; page_loading_text := "Loading..." |} in
  let v := @new_JuliaSetViewer float binary64 b in
  loading_text v = "WebGL initialization failed: WebGL not supported"%string /\
  render_calls (@run float binary64 [Wheel 1; WindowResize 3 2 1; ZoomInput "2"] v) = 0%nat /\
  render_calls small_viewer = 1%nat.
Proof.
  intros b v.
  destruct (@init_failure_is_fatal float binary64 b) as [Hfail _].
  destruct (Hfail "WebGL not supported"%string eq_refl)
    as (_ & Ht & Hr & _ & _ & _ & Hrun).
  destruct (@init_failure_is_fatal float binary64 small_window) as [_ Hok].
  destruct (Hok eq_refl) as (_ & _ & _ & _ & _ & Hone).
  split; [exact Ht|]. split; [|exact Hone].
  fold v in Hrun. rewrite Hrun. exact Hr.
Defined.

(* ================================================================== *)
(** * Zoom under events *)
(* ================================================================== *)

Section Zoom_invariant.

Context {F : Type} `{ShaderArith F}.
Local Open Scope float_scope.

Lemma render_zoom (v : Viewer F) : zoom (exec render v) = zoom v.
Proof.
  change (vs_zoom (view_state (exec render v)) = vs_zoom (view_state v)).
  now rewrite render_view_state.
Qed.

Lemma dispatch_wheel_zoom (v : Viewer F) (deltaY : float) :
  zoom (dispatch v (Wheel deltaY))
  = if listeners v then wheel_zoom deltaY (zoom v) else zoom v.
Proof.
  unfold dispatch. cbn [listening]. destruct (listeners v); [|reflexivity].
  rewrite handle_exec, render_zoom. reflexivity.
Qed.

Lemma resizeCanvas_exec (width height ratio : float) (v : Viewer F) :
  exec (resizeCanvas width height ratio) v =
  let w := JS.reflect_unsigned_long 300 (width * JS.or_default ratio 1) in
  let h := JS.reflect_unsigned_long 150 (height * JS.or_default ratio 1) in
  match gl v with
  | Some g =>
      exec render (set_gl (Some (viewport w h g))
                     (set_canvas_height h (set_canvas_width w v)))
  | None => set_canvas_height h (set_canvas_width w v)
  end.
Proof.
  unfold resizeCanvas, exec, bind, modify, get, ret.
  cbn [gl set_canvas_height set_canvas_width fst snd].
  destruct (gl v); reflexivity.
Qed.

(** On an initialised viewer a handler either changes fields and renders,
    or leaves the context and the View State alone. *)
Lemma handle_initialised (e : Event) (v : Viewer F) :
  initialised v = true ->
  let v' := exec (handle e) v in
  initialised v' = true /\
  listeners v' = listeners v /\ ui_listeners v' = ui_listeners v /\
  zoom v' = zoom_after e (zoom v) /\
  ((exists m, v' = exec render m /\ initialised m = true)
   \/ (gl v' = gl v /\ view_state v' = view_state v)).
Proof.
  intros Hi v'. unfold v'. rewrite handle_exec.
  assert (Hrender : forall m : Viewer F,
             initialised m = true ->
             initialised (exec render m) = true /\
             listeners (exec render m) = listeners m /\
             ui_listeners (exec render m) = ui_listeners m /\
             zoom (exec render m) = zoom m /\
             (exists m', exec render m = exec render m' /\ initialised m' = true)).
  { intros m Hm. destruct (render_initialised m Hm) as [Hm' _].
    split; [exact Hm'|]. rewrite render_zoom.
    split; [rewrite render_exec; destruct (gl m); reflexivity|].
    split; [rewrite render_exec; destruct (gl m); reflexivity|].
    split; [reflexivity|]. exists m. split; [reflexivity | exact Hm]. }
  assert (Hstep : forall m : Viewer F,
             initialised m = true ->
             listeners m = listeners v -> ui_listeners m = ui_listeners v ->
             initialised (exec render m) = true /\
             listeners (exec render m) = listeners v /\
             ui_listeners (exec render m) = ui_listeners v /\
             zoom (exec render m) = zoom m /\
             ((exists m', exec render m = exec render m' /\ initialised m' = true)
              \/ (gl (exec render m) = gl v /\
                  view_state (exec render m) = view_state v))).
  { intros m Hm Hl Hu. destruct (Hrender m Hm) as (A & B & C & D & E).
    rewrite B, C, Hl, Hu. repeat split; try assumption. left. exact E. }
  assert (Hidle : forall m : Viewer F,
             initialised m = true -> gl m = gl v -> view_state m = view_state v ->
             initialised m = true /\
             listeners m = listeners m /\ ui_listeners m = ui_listeners m /\
             zoom m = zoom m /\
             ((exists m', m = exec render m' /\ initialised m' = true)
              \/ (gl m = gl v /\ view_state m = view_state v))).
  { intros m Hm Hg Hs. repeat split; try assumption. right. split; assumption. }
  destruct e; cbn [zoom_after];
    try (match goal with
         | |- context [exec render ?m] => exact (Hstep m Hi eq_refl eq_refl)
         end);
    try (match goal with
         | |- initialised ?m = true /\ _ => exact (Hidle m Hi eq_refl eq_refl)
         end).
  - (* mousemove *)
    destruct (isDragging v).
    + match goal with
      | |- context [exec render ?m] => exact (Hstep m Hi eq_refl eq_refl)
      end.
    + exact (Hidle v Hi eq_refl eq_refl).
  - (* resize *)
    rewrite resizeCanvas_exec. cbv zeta.
    unfold initialised in Hi. destruct (gl v) as [g|] eqn:Hg; [|discriminate].
    match goal with
    | |- context [exec render ?m] => exact (Hstep m Hi eq_refl eq_refl)
    end.
  - (* click on the canvas *)
    destruct (controlsVisible v && negb (isDragging v)).
    + exact (Hidle (set_controlsVisible false v) Hi eq_refl eq_refl).
    + exact (Hidle v Hi eq_refl eq_refl).
Qed.


Lemma run_wheel_in_range (deltas : list float) (v : Viewer F) :
  (0.1 <=? zoom v) = true -> (zoom v <=? 10) = true ->
  (0.1 <=? zoom (run (map Wheel deltas) v)) = true /\
  (zoom (run (map Wheel deltas) v) <=? 10) = true.
Proof.
  revert v. induction deltas as [|d deltas IH]; intros v Hlo Hhi.
  - split; assumption.
  - cbn [map]. unfold run. cbn [fold_left]. apply IH.
    + rewrite dispatch_wheel_zoom. destruct (listeners v); [|exact Hlo].
      apply wheel_zoom_in_range. apply (leb_not_nan_l _ _ Hhi).
    + rewrite dispatch_wheel_zoom. destruct (listeners v); [|exact Hhi].
      apply wheel_zoom_in_range. apply (leb_not_nan_l _ _ Hhi).
Qed.

End Zoom_invariant.

(** C5: a wheel event multiplies the zoom by 0.9 when [deltaY > 0] and by
    1.1 otherwise, and clamps the product with [Math.min] and [Math.max];
    from a zoom within [0.1, 10], any sequence of wheel events leaves the
    zoom within [0.1, 10]. *)
Theorem wheel_zoom_stays_clamped
  {F : Type} `{ShaderArith F} (v : Viewer F) (deltas : list float) :
  (0.1 <=? zoom v)%float = true -> (zoom v <=? 10)%float = true ->
  let v' := run (map Wheel deltas) v in
  ((0.1 <=? zoom v')%float = true /\ (zoom v' <=? 10)%float = true) /\
  (forall (u : Viewer F) (deltaY : float),
      listeners u = true ->
      zoom (dispatch u (Wheel deltaY))
      = JS.Math_max 0.1
          (JS.Math_min 10.0
             (zoom u * (if (0 <? deltaY)%float then 0.9 else 1.1)))%float).
Proof.
  intros Hlo Hhi v'. split.
  - apply run_wheel_in_range; assumption.
  - intros u deltaY Hl. rewrite dispatch_wheel_zoom, Hl. reflexivity.
Qed.

Lemma wheel_zoom_stays_clamped_witness :
  let v := @run float binary64 (map Wheel (repeat 1%float 40)) small_viewer in
  zoom v = 0.1%float /\
  (0.1 <=? zoom (@run float binary64 (map Wheel [(-1)%float; 1%float; (-1)%float]) v))%float
    = true.
Proof.
  intros v. split; [vm_compute; reflexivity|].
  assert (Hlo : (0.1 <=? zoom v)%float = true) by (vm_compute; reflexivity).
  assert (Hhi : (zoom v <=? 10)%float = true) by (vm_compute; reflexivity).
  destruct (@wheel_zoom_stays_clamped float binary64 v
              [(-1)%float; 1%float; (-1)%float] Hlo Hhi) as [[Hl _] _].
  exact Hl.
Defined.

(* ================================================================== *)
(** * Divisors *)
(* ================================================================== *)

Section Reachable_states.

Context {F : Type} `{ShaderArith F}.







End Reachable_states.





(* ================================================================== *)
(** * More on the shader *)
(* ================================================================== *)

Section Escape_time_growth.

Context {F : Type} `{ShaderArith F}.

Lemma escape_time_monotone (b b' : nat) (c z : vec2 F) :
  (b <= b')%nat -> (escape_time b c z <= escape_time b' c z)%Z.
Proof.
  revert b' z. induction b as [|b IH]; intros b' z Hb.
  - cbn [escape_time]. apply escape_time_bounds.
  - destruct b' as [|b']; [lia|]. cbn [escape_time].
    destruct (escaped z); [lia|].
    specialize (IH b' (julia_step c z)). lia.
Qed.

(** A count that stopped short of its budget is the count of every larger
    budget. *)
Lemma escape_time_stable (b b' : nat) (c z : vec2 F) :
  (escape_time b c z < Z.of_nat b)%Z -> (b <= b')%nat ->
  escape_time b' c z = escape_time b c z.
Proof.
  revert b' z. induction b as [|b IH]; intros b' z Hlt Hb.
  - cbn [escape_time] in Hlt. lia.
  - destruct b' as [|b']; [lia|]. cbn [escape_time] in *.
    destruct (escaped z); [reflexivity|].
    rewrite (IH b' (julia_step c z)); [reflexivity | lia | lia].
Qed.

End Escape_time_growth.

(** X1: raising [maxIterations] never lowers a pixel's count, and a pixel
    whose count stopped before [min N 500], that is by escaping, keeps that
    count for every larger [maxIterations]. *)
Theorem escape_count_stable_when_raising_maxIterations
  {F : Type} `{ShaderArith F} (N N' : Z) (c z : vec2 F) :
  (N <= N')%Z ->
  (julia_iterations N c z <= julia_iterations N' c z)%Z /\
  ((julia_iterations N c z < Z.min N 500)%Z ->
   julia_iterations N' c z = julia_iterations N c z).
Proof.
  intros HN. rewrite !julia_iterations_spec. unfold spec_escape_time. split.
  - apply escape_time_monotone. lia.
  - intros Hlt. apply escape_time_stable; [|lia].
    pose proof (escape_time_bounds (Z.to_nat (Z.min N 500)) c z). lia.
Qed.

Lemma escape_count_stable_when_raising_maxIterations_witness :
  let c : vec2 Q := Vec2 (-0.7) 0.27015 in
  let z : vec2 Q := Vec2 (-799 # 600) (-599 # 600) in
  julia_iterations 10 c z = 1%Z /\ julia_iterations 500 c z = julia_iterations 10 c z.
Proof.
  intros c z.
  assert (Hn : julia_iterations 10 c z = 1%Z) by (vm_compute; reflexivity).
  destruct (escape_count_stable_when_raising_maxIterations 10 500 c z) as [_ Hs];
    [lia|].
  split; [exact Hn|]. apply Hs. rewrite Hn. reflexivity.
Defined.

(** X2: the in-set branch at the ends of the range of [u_max_iterations].
    With 0 every fragment is black; with a negative value or a value above
    the loop bound 500 no fragment takes the black branch: the colour is
    the gradient of [count / u_max_iterations], and the count is 0 for a
    negative value. *)
Theorem in_set_branch_at_extreme_maxIterations
  {F : Type} `{ShaderArith F} (u : Uniforms F) (uv : vec2 F) :
  let N := u_max_iterations u in
  let n := julia_iterations N (u_julia_c u) (map_to_plane u uv) in
  (N = 0%Z -> fragment_main u uv = black) /\
  ((500 < N)%Z ->
   fragment_main u uv = Vec4 (gradient (fdiv (of_int n) (of_int N))) (lit 1.0)) /\
  ((N < 0)%Z ->
   n = 0%Z /\
   fragment_main u uv = Vec4 (gradient (fdiv (of_int 0) (of_int N))) (lit 1.0)).
Proof.
  intros N n.
  assert (Hspec : n = spec_escape_time (Z.min N 500) (u_julia_c u) (map_to_plane u uv))
    by apply julia_iterations_spec.
  pose proof (escape_time_bounds (Z.to_nat (Z.min N 500)) (u_julia_c u)
                (map_to_plane u uv)) as Hb.
  fold (spec_escape_time (Z.min N 500) (u_julia_c u) (map_to_plane u uv)) in Hb.
  rewrite <- Hspec in Hb.
  unfold fragment_main, shade. fold N. fold n.
  split; [|split].
  - intros HN. replace (n =? N)%Z with true; [reflexivity|].
    symmetry. apply Z.eqb_eq. lia.
  - intros HN. replace (n =? N)%Z with false; [reflexivity|].
    symmetry. apply Z.eqb_neq. lia.
  - intros HN. assert (Hn : n = 0%Z) by lia. split; [exact Hn|].
    rewrite Hn. replace (0 =? N)%Z with false; [reflexivity|].
    symmetry. apply Z.eqb_neq. lia.
Qed.

Lemma in_set_branch_at_extreme_maxIterations_witness :
  let u0 : Uniforms Q :=
    {| u_julia_c := Vec2 0 0; u_zoom := 1; u_offset := Vec2 0 0;
       u_max_iterations := 0; u_resolution := Vec2 800 600 |} in
  let u1 : Uniforms Q :=
    {| u_julia_c := Vec2 0 0; u_zoom := 1; u_offset := Vec2 0 0;
       u_max_iterations := 501; u_resolution := Vec2 800 600 |} in
  let u2 : Uniforms Q :=
    {| u_julia_c := Vec2 0 0; u_zoom := 1; u_offset := Vec2 0 0;
       u_max_iterations := -3; u_resolution := Vec2 800 600 |} in
  let centre : vec2 Q := Vec2 (1 # 2) (1 # 2) in
  fragment_main u0 centre = black /\
  fragment_main u1 centre = Vec4 (gradient (Qred (500 # 501))) 1 /\
  fragment_main u2 centre = Vec4 (Vec3 (1 # 10) (1 # 5) (1 # 2)) 1.
Proof.
  intros u0 u1 u2 centre.
  destruct (in_set_branch_at_extreme_maxIterations u0 centre) as (H0 & _ & _).
  destruct (in_set_branch_at_extreme_maxIterations u1 centre) as (_ & H1 & _).
  destruct (in_set_branch_at_extreme_maxIterations u2 centre) as (_ & _ & H2).
  split; [apply H0; reflexivity|]. split.
  - rewrite H1 by (vm_compute; reflexivity). vm_compute. reflexivity.
  - destruct H2 as [_ H2]; [vm_compute; reflexivity|].
    rewrite H2. vm_compute. reflexivity.
Defined.

(** The step [z <- z^2 + c] and the escape test only see the squares and
    the product of the coordinates of [z].  In an arithmetic whose
    multiplication gives opposite factors the same products, a point and
    its opposite therefore step to the same point and escape together. *)
Section Opposite_points.

Context {F : Type} `{ShaderArith F}.
Variable neg : F -> F.
Hypothesis square_of_opposite :
  forall a b : F, fmul (neg a) (neg b) = fmul a b.
Hypothesis double_product_of_opposite :
  forall a b : F, fmul (fmul (lit 2.0) (neg a)) (neg b) = fmul (fmul (lit 2.0) a) b.

Lemma julia_step_opposite (c : vec2 F) (x y : F) :
  julia_step c (Vec2 (neg x) (neg y)) = julia_step c (Vec2 x y) /\
  escaped (Vec2 (neg x) (neg y)) = escaped (Vec2 x y).
Proof.
  unfold julia_step, escaped, dot. cbn [vx vy].
  rewrite !square_of_opposite, double_product_of_opposite. split; reflexivity.
Qed.

Lemma julia_loop_opposite (fuel : nat) (i N : Z) (c : vec2 F) (x y : F) (k : Z) :
  snd (julia_loop fuel i N c (Vec2 (neg x) (neg y)) k)
  = snd (julia_loop fuel i N c (Vec2 x y) k).
Proof.
  destruct (julia_step_opposite c x y) as [Hs He].
  destruct fuel as [|fuel]; [reflexivity|]. cbn [julia_loop].
  destruct (N <=? i)%Z; [reflexivity|]. rewrite He, Hs.
  destruct (escaped (Vec2 x y)); reflexivity.
Qed.

End Opposite_points.

(** Binary64 multiplication is such an arithmetic: rounding does not look
    at the sign. *)
Lemma binary_round_aux_opp (s : bool) (m e : Z) (l : location) :
  SFopp (binary_round_aux prec emax s m e l)
  = binary_round_aux prec emax (negb s) m e l.
Proof.
  unfold binary_round_aux.
  destruct (shr_fexp prec emax m e l) as [mrs' e'].
  destruct (shr_fexp prec emax _ e' loc_Exact) as [mrs'' e''].
  destruct (shr_m mrs''); try reflexivity.
  destruct (e'' <=? emax - prec)%Z; reflexivity.
Qed.

Lemma SFmul_opp_r (a b : spec_float) :
  SFmul prec emax a (SFopp b) = SFopp (SFmul prec emax a b).
Proof.
  destruct a as [sa|sa| |sa ma ea], b as [sb|sb| |sb mb eb]; cbn [SFmul SFopp];
    try reflexivity;
    try (destruct sa, sb; reflexivity).
  rewrite binary_round_aux_opp. destruct sa, sb; reflexivity.
Qed.

Lemma SFmul_opp_l (a b : spec_float) :
  SFmul prec emax (SFopp a) b = SFopp (SFmul prec emax a b).
Proof.
  destruct a as [sa|sa| |sa ma ea], b as [sb|sb| |sb mb eb]; cbn [SFmul SFopp];
    try reflexivity;
    try (destruct sa, sb; reflexivity).
  rewrite binary_round_aux_opp. destruct sa, sb; reflexivity.
Qed.

Lemma SFopp_involutive (a : spec_float) : SFopp (SFopp a) = a.
Proof. destruct a as [s|s| |s m e]; cbn; rewrite ?negb_involutive; reflexivity. Qed.

Lemma mul_opp_opp (a b : float) : (- a * - b = a * b)%float.
Proof.
  apply Prim2SF_inj.
  rewrite !FloatAxioms.mul_spec, !FloatAxioms.opp_spec.
  unfold SF64mul. rewrite SFmul_opp_l, SFmul_opp_r, SFopp_involutive. reflexivity.
Qed.

Lemma mul_opp_r (a b : float) : (a * - b = - (a * b))%float.
Proof.
  apply Prim2SF_inj.
  rewrite !FloatAxioms.opp_spec, !FloatAxioms.mul_spec, FloatAxioms.opp_spec.
  apply SFmul_opp_r.
Qed.

(** X3: the escape-time loop gives a point and its opposite the same
    iteration count, for every [c] and [maxIterations]: in IEEE binary64
    arithmetic, to the bit and including infinities and NaN, as in exact
    arithmetic. *)
Theorem opposite_points_have_the_same_count (N : Z) :
  (forall (c : vec2 float) (x y : float),
      @julia_iterations float binary64 N c (Vec2 (- x) (- y))%float
      = @julia_iterations float binary64 N c (Vec2 x y)) /\
  (forall (c : vec2 Q) (x y : Q),
      julia_iterations N c (Vec2 (- x) (- y))%Q = julia_iterations N c (Vec2 x y)).
Proof.
  split; intros c x y; unfold julia_iterations.
  - apply (@julia_loop_opposite float binary64 PrimFloat.opp).
    + intros a b. apply mul_opp_opp.
    + intros a b. cbn [fmul binary64].
      rewrite (mul_opp_r _ a), mul_opp_opp. reflexivity.
  - apply (@julia_loop_opposite Q exactQ Qopp).
    + intros a b. cbn [fmul exactQ]. apply Qred_complete. ring.
    + intros a b. cbn [fmul lit exactQ]. apply Qred_complete.
      rewrite !Qred_correct. ring.
Qed.

Lemma opposite_points_have_the_same_count_witness :
  let c : vec2 float := Vec2 (-0.7)%float 0.27015%float in
  @julia_iterations float binary64 100 c (Vec2 (- 0.3) (- 0.4))%float
  = @julia_iterations float binary64 100 c (Vec2 0.3 0.4)%float.
Proof.
  intros c. destruct (opposite_points_have_the_same_count 100) as [Hf _].
  exact (Hf c 0.3%float 0.4%float).
Defined.

(** X4: in exact arithmetic, for a positive zoom and a positive canvas
    size, every texture coordinate of the unit square is mapped to a point
    whose imaginary part lies within [1 / zoom] of the offset's, and whose
    real part lies between [(offset.x - 1 / zoom) * aspect] and
    [(offset.x + 1 / zoom) * aspect]. *)
Theorem visible_window (u : Uniforms Q) (uv : vec2 Q) :
  let aspect := (vx (u_resolution u) / vy (u_resolution u))%Q in
  let r := (1 / u_zoom u)%Q in
  (0 < u_zoom u)%Q -> (0 < vx (u_resolution u))%Q -> (0 < vy (u_resolution u))%Q ->
  (0 <= vx uv)%Q -> (vx uv <= 1)%Q -> (0 <= vy uv)%Q -> (vy uv <= 1)%Q ->
  ((vx (u_offset u) - r) * aspect <= vx (map_to_plane u uv))%Q /\
  (vx (map_to_plane u uv) <= (vx (u_offset u) + r) * aspect)%Q /\
  (vy (u_offset u) - r <= vy (map_to_plane u uv))%Q /\
  (vy (map_to_plane u uv) <= vy (u_offset u) + r)%Q.
Proof.
  intros aspect r Hz Hw Hh Hx0 Hx1 Hy0 Hy1.
  assert (Hr : (0 < r)%Q).
  { unfold r. apply Qlt_shift_div_l; [exact Hz|]. rewrite Qmult_0_l. reflexivity. }
  assert (Ha : (0 < aspect)%Q).
  { unfold aspect. apply Qlt_shift_div_l; [exact Hh|]. rewrite Qmult_0_l. exact Hw. }
  assert (Hscale : forall s : Q, (0 <= s)%Q -> (s <= 1)%Q ->
             (- r <= (s - 0.5) * 2.0 / u_zoom u)%Q /\
             ((s - 0.5) * 2.0 / u_zoom u <= r)%Q).
  { intros s Hs0 Hs1.
    assert (He : ((s - 0.5) * 2.0 / u_zoom u == ((s - 0.5) * 2.0) * r)%Q)
      by (unfold r; field; intros Hc; rewrite Hc in Hz; discriminate).
    rewrite He. split; nra. }
  unfold map_to_plane. cbn [vx vy fadd fsub fmul fdiv lit exactQ].
  rewrite !Qred_correct. fold aspect.
  destruct (Hscale (vx uv) Hx0 Hx1) as [Hxl Hxu].
  destruct (Hscale (vy uv) Hy0 Hy1) as [Hyl Hyu].
  repeat split; try lra.
  - apply Qmult_le_compat_r; [lra | apply Qlt_le_weak, Ha].
  - apply Qmult_le_compat_r; [lra | apply Qlt_le_weak, Ha].
Qed.

Lemma visible_window_witness :
  let u : Uniforms Q :=
    {| u_julia_c := Vec2 (-0.7) 0.27015; u_zoom := 2; u_offset := Vec2 0 0;
       u_max_iterations := 100; u_resolution := Vec2 800 600 |} in
  (- (1 # 2) <= vy (map_to_plane u (Vec2 1 0)))%Q /\
  (vx (map_to_plane u (Vec2 1 0)) <= (2 # 3))%Q.
Proof.
  intros u.
  destruct (visible_window u (Vec2 1 0)) as (_ & Hx & Hy & _);
    try (vm_compute; reflexivity); try (vm_compute; discriminate).
  split.
  - apply Qle_trans with (2 := Hy). vm_compute. discriminate.
  - apply Qle_trans with (1 := Hx). vm_compute. discriminate.
Defined.

(** X5: in exact arithmetic and for a zoom that is not 0, the coordinate
    mapping sends the centre of the canvas to [(offset.x * aspect, offset.y)],
    and lowering [offset.x] by [2 a / zoom] while raising [offset.y] by
    [2 b / zoom] shifts the mapping by [(a, -b)] in texture coordinates: the
    point that was mapped from [(x, y)] is mapped from [(x + a, y - b)]. *)
Theorem offset_shifts_the_mapping (u : Uniforms Q) :
  ~ (u_zoom u == 0)%Q ->
  ((vx (map_to_plane u (Vec2 (1 # 2) (1 # 2)))
    == vx (u_offset u) * (vx (u_resolution u) / vy (u_resolution u)))%Q /\
   (vy (map_to_plane u (Vec2 (1 # 2) (1 # 2))) == vy (u_offset u))%Q) /\
  (forall a b x y : Q,
      let panned :=
        {| u_julia_c := u_julia_c u;
           u_zoom := u_zoom u;
           u_offset := Vec2 (vx (u_offset u) - a * 2 / u_zoom u)%Q
                            (vy (u_offset u) + b * 2 / u_zoom u)%Q;
           u_max_iterations := u_max_iterations u;
           u_resolution := u_resolution u |} in
      map_to_plane panned (Vec2 (x + a) (y - b))%Q = map_to_plane u (Vec2 x y)).
Proof.
  intros Hz. split.
  - unfold map_to_plane. cbn [vx vy fadd fsub fmul fdiv lit exactQ].
    rewrite !Qred_correct. unfold Qdiv. split; ring.
  - intros a b x y panned.
    unfold map_to_plane, panned.
    cbn [vx vy fadd fsub fmul fdiv lit exactQ u_zoom u_offset u_resolution].
    assert (Hx : Qred (Qred (Qred (Qred (x + a - Qred 0.5) * Qred 2.0) / u_zoom u)
                       + (vx (u_offset u) - a * 2 / u_zoom u))
                 = Qred (Qred (Qred (Qred (x - Qred 0.5) * Qred 2.0) / u_zoom u)
                         + vx (u_offset u)))
      by (apply Qred_complete; rewrite !Qred_correct; field; exact Hz).
    assert (Hy : Qred (Qred (Qred (Qred (y - b - Qred 0.5) * Qred 2.0) / u_zoom u)
                       + (vy (u_offset u) + b * 2 / u_zoom u))
                 = Qred (Qred (Qred (Qred (y - Qred 0.5) * Qred 2.0) / u_zoom u)
                         + vy (u_offset u)))
      by (apply Qred_complete; rewrite !Qred_correct; field; exact Hz).
    rewrite Hx, Hy. reflexivity.
Qed.

Lemma offset_shifts_the_mapping_witness :
  let u : Uniforms Q :=
    {| u_julia_c := Vec2 (-0.7) 0.27015; u_zoom := 2; u_offset := Vec2 0 0;
       u_max_iterations := 100; u_resolution := Vec2 800 600 |} in
  let panned : Uniforms Q :=
    {| u_julia_c := Vec2 (-0.7) 0.27015; u_zoom := 2;
       u_offset := Vec2 (0 - (1 # 4) * 2 / 2)%Q (0 + (1 # 8) * 2 / 2)%Q;
       u_max_iterations := 100; u_resolution := Vec2 800 600 |} in
  map_to_plane panned (Vec2 ((1 # 2) + (1 # 4)) ((1 # 2) - (1 # 8)))%Q
  = map_to_plane u (Vec2 (1 # 2) (1 # 2)).
Proof.
  intros u panned.
  destruct (offset_shifts_the_mapping u) as [_ Hpan];
    [vm_compute; discriminate|].
  exact (Hpan (1 # 4) (1 # 8) (1 # 2) (1 # 2))%Q.
Defined.

(* ================================================================== *)
(** * Renders, draws and exceptions *)
(* ================================================================== *)

Section Handler_effects.

Context {F : Type} `{ShaderArith F}.
Local Open Scope float_scope.

Lemma render_counts (m : Viewer F) :
  render_calls (exec render m) = S (render_calls m) /\
  listeners (exec render m) = listeners m /\
  ui_listeners (exec render m) = ui_listeners m /\
  (forall g, gl m = Some g ->
     exists g', gl (exec render m) = Some g' /\ gl_draws g' = S (gl_draws g)) /\
  (gl m = None -> gl (exec render m) = None).
Proof.
  rewrite render_exec. destruct (gl m) as [g|] eqn:Hgm;
    cbn [render_calls listeners ui_listeners gl set_gl set_render_calls];
    (split; [reflexivity|]); (split; [reflexivity|]); (split; [reflexivity|]); split.
  - intros g0 Hg. injection Hg as <-. eexists. split; reflexivity.
  - discriminate.
  - intros g0 Hg. discriminate.
  - intros _. exact Hgm.
Qed.

(** Every handler is some field updates that keep the counters, followed
    by [render] or not. *)
Lemma handle_shape (e : Event) (v : Viewer F) :
  exists m : Viewer F,
    exec (handle e) v = (if triggers_render e v then exec render m else m) /\
    render_calls m = render_calls v /\
    option_map gl_draws (gl m) = option_map gl_draws (gl v).
Proof.
  rewrite handle_exec. destruct e; cbn [triggers_render];
    try (eexists; split; [reflexivity|]; split; reflexivity).
  - destruct (isDragging v); eexists; (split; [reflexivity|]; split; reflexivity).
  - rewrite resizeCanvas_exec. cbv zeta.
    destruct (gl v) as [g|] eqn:Hg; eexists; (split; [reflexivity|]);
      cbn [render_calls gl set_gl set_canvas_height set_canvas_width];
      rewrite ?Hg; split; reflexivity.
  - destruct (controlsVisible v && negb (isDragging v));
      eexists; (split; [reflexivity|]; split; reflexivity).
Qed.

Lemma handle_counts (e : Event) (v : Viewer F) :
  let k := if triggers_render e v then 1%nat else 0%nat in
  render_calls (exec (handle e) v) = (render_calls v + k)%nat /\
  (forall g, gl v = Some g ->
     exists g', gl (exec (handle e) v) = Some g' /\
                gl_draws g' = (gl_draws g + k)%nat) /\
  (gl v = None -> gl (exec (handle e) v) = None).
Proof.
  intros k. destruct (handle_shape e v) as (m & Hm & Hr & Hd). rewrite Hm.
  unfold k. destruct (triggers_render e v).
  - destruct (render_counts m) as (Hc & _ & _ & Hg & Hn). rewrite Hc, Hr.
    split; [lia|]. split.
    + intros g Hgl. rewrite Hgl in Hd. destruct (gl m) as [gm|] eqn:Hgm; [|discriminate].
      destruct (Hg gm eq_refl) as (g' & Hg' & Hdr). exists g'. split; [exact Hg'|].
      cbn in Hd. injection Hd as Hd. lia.
    + intros Hgl. rewrite Hgl in Hd. destruct (gl m); [discriminate|]. apply Hn. reflexivity.
  - rewrite Hr. split; [lia|]. split.
    + intros g Hgl. rewrite Hgl in Hd. destruct (gl m) as [gm|]; [|discriminate].
      exists gm. split; [reflexivity|]. cbn in Hd. injection Hd as Hd. lia.
    + intros Hgl. rewrite Hgl in Hd. destruct (gl m); [discriminate|reflexivity].
Qed.

End Handler_effects.

(** X8: a handler calls [render] at most once, and exactly when
    [triggers_render] says: once for a slider, a preset, the wheel, a
    [mousemove] while dragging and a resize with a context, never for
    [mousedown], [mouseup] and the panel events; each call of [render] with a
    context issues one draw call, and nothing else draws. *)
Theorem one_render_per_parameter_change
  {F : Type} `{ShaderArith F} (e : Event) (v : Viewer F) :
  let k := if triggers_render e v then 1%nat else 0%nat in
  render_calls (exec (handle e) v) = (render_calls v + k)%nat /\
  (forall g, gl v = Some g ->
     exists g', gl (exec (handle e) v) = Some g' /\
                gl_draws g' = (gl_draws g + k)%nat).
Proof.
  intros k. destruct (handle_counts e v) as (Hr & Hg & _). split; assumption.
Qed.

Lemma one_render_per_parameter_change_witness :
  render_calls (@exec _ unit (@handle float binary64 (Wheel 1)) small_viewer) = 2%nat /\
  render_calls (@exec _ unit (@handle float binary64 (MouseMove 1 1)) small_viewer) = 1%nat.
Proof.
  destruct (@one_render_per_parameter_change float binary64 (Wheel 1) small_viewer)
    as [Hw _].
  destruct (@one_render_per_parameter_change float binary64 (MouseMove 1 1) small_viewer)
    as [Hm _].
  split; [rewrite Hw | rewrite Hm]; vm_compute; reflexivity.
Defined.

Section Reachable_invariant.

Context {F : Type} `{ShaderArith F}.
Local Open Scope float_scope.

Lemma render_returns_with_context : returns_with_context render.
Proof.
  intros u Hu. destruct (gl u) as [g|] eqn:Hg; [|congruence].
  apply (render_returns u g Hg).
Qed.

Lemma modify_returns_with_context (f : Viewer F -> Viewer F) :
  returns_with_context (modify f).
Proof. intros u _. reflexivity. Qed.

Lemma seq_returns_with_context (f : Viewer F -> Viewer F) (k : Js (Viewer F) unit) :
  (forall u, gl u <> None -> gl (f u) <> None) ->
  returns_with_context k ->
  returns_with_context (bind (modify f) (fun _ => k)).
Proof.
  intros Hf Hk u Hu. unfold exec, bind, modify. cbn [fst snd].
  rewrite (Hk (f u)) by (apply Hf; exact Hu). reflexivity.
Qed.

Lemma bind_get (k : Viewer F -> Js (Viewer F) unit) (u : Viewer F) :
  bind get k u = k u u.
Proof. reflexivity. Qed.

Lemma exec_bind_get (k : Viewer F -> Js (Viewer F) unit) (u : Viewer F) :
  exec (bind get k) u = exec (k u) u.
Proof. reflexivity. Qed.

(** With a context every handler returns. *)
Lemma handle_returns (e : Event) : returns_with_context (handle e).
Proof.
  assert (Hr := render_returns_with_context).
  destruct e; cbn [handle].
  - apply seq_returns_with_context; [intros u Hu; exact Hu | exact Hr].
  - apply seq_returns_with_context; [intros u Hu; exact Hu | exact Hr].
  - apply seq_returns_with_context; [intros u Hu; exact Hu | exact Hr].
  - apply seq_returns_with_context; [intros u Hu; exact Hu | exact Hr].
  - do 2 (apply seq_returns_with_context; [intros u Hu; exact Hu|]). exact Hr.
  - intros u _. reflexivity.
  - intros u Hu. rewrite exec_bind_get, bind_get.
    destruct (isDragging u); [|reflexivity].
    refine (seq_returns_with_context _ _ _
              (seq_returns_with_context _ _ _
                 (seq_returns_with_context _ _ _
                    (seq_returns_with_context _ _ _ Hr))) u Hu);
      intros w Hw; exact Hw.
  - intros u _. reflexivity.
  - apply seq_returns_with_context; [intros u Hu; exact Hu | exact Hr].
  - unfold resizeCanvas.
    apply seq_returns_with_context; [intros u Hu; exact Hu|].
    apply seq_returns_with_context; [intros u Hu; exact Hu|].
    intros w Hw. rewrite exec_bind_get, bind_get.
    destruct (gl w) as [g|] eqn:Hg; [|congruence].
    refine (seq_returns_with_context _ _ _ Hr w _);
      [intros; discriminate | rewrite Hg; discriminate].
  - intros u _. reflexivity.
  - intros u _. reflexivity.
  - intros u _. rewrite exec_bind_get, bind_get.
    destruct (controlsVisible u && negb (isDragging u)); reflexivity.
Qed.

Lemma dispatch_settled (v : Viewer F) (e : Event) :
  settled v ->
  settled (dispatch v e) /\
  listeners (dispatch v e) = listeners v /\
  ui_listeners (dispatch v e) = ui_listeners v.
Proof.
  intros (Hl & Hd & Hg & Hn). unfold dispatch.
  destruct (listening e v) eqn:Hlis; [|repeat split; assumption].
  assert (Hon : listeners v = true \/ ui_listeners v = true).
  { destruct e; cbn [listening] in Hlis; auto. }
  assert (Hi : initialised v = true) by (apply Hl, Hon).
  destruct (handle_initialised e v Hi) as (Hi' & Hl' & Hu' & _ & Hcases).
  destruct (handle_counts e v) as (Hr & Hgc & _).
  split; [|split; assumption].
  split; [intros _; exact Hi'|]. split; [|split].
  - intros _. destruct Hcases as [(m & Hm & Hmi) | (Hgl & Hv)].
    + rewrite Hm. destruct (render_initialised m Hmi) as [_ Hdm].
      rewrite Hdm, render_view_state. reflexivity.
    + unfold displayed. rewrite Hgl, Hv. apply Hd. exact Hon.
  - intros g' Hg'. unfold initialised in Hi.
    destruct (gl v) as [g|] eqn:Hgv; [|discriminate].
    destruct (Hgc g eq_refl) as (g'' & Hg'' & Hdr).
    rewrite Hg'' in Hg'. injection Hg' as <-.
    rewrite Hdr, Hr, (Hg g eq_refl). reflexivity.
  - intros Hnone. unfold initialised in Hi'. rewrite Hnone in Hi'. discriminate.
Qed.

Lemma new_viewer_settled (b : Browser) : settled (new_JuliaSetViewer b).
Proof.
  destruct (init_failure b) as [message|] eqn:Hb.
  - destruct (init_failed b message Hb) as (v0 & Hv & Hl & Hu & Hr & _ & Hg).
    rewrite Hv. unfold settled.
    cbn [listeners ui_listeners gl render_calls set_loading_show set_loading_text].
    rewrite Hl, Hu, Hr.
    split; [intros [?|?]; discriminate|].
    split; [intros [?|?]; discriminate|].
    split; [|reflexivity].
    intros g Hgl. apply (Hg g Hgl).
  - rewrite (init_succeeded b Hb).
    set (m := set_loading_show false _).
    assert (Hm : initialised m = true) by reflexivity.
    destruct (render_initialised m Hm) as [Hi Hd].
    destruct (render_counts m) as (Hc & _ & _ & Hgd & _).
    split; [intros _; exact Hi|]. split; [|split].
    + intros _. rewrite Hd, render_view_state. reflexivity.
    + intros g Hgl.
      destruct (Hgd (bind_quad (fresh_context (canvas_width (sized b : Viewer F))
                                              (canvas_height (sized b : Viewer F))))
                  eq_refl) as (g' & Hg' & Hdr).
      rewrite Hg' in Hgl. injection Hgl as <-. rewrite Hdr, Hc. reflexivity.
    + intros Hnone. unfold initialised in Hi. rewrite Hnone in Hi. discriminate.
Qed.

Lemma run_settled (events : list Event) (v : Viewer F) :
  settled v ->
  settled (run events v) /\
  listeners (run events v) = listeners v /\
  ui_listeners (run events v) = ui_listeners v.
Proof.
  revert v. induction events as [|e events IH]; intros v Hv.
  - repeat split; try reflexivity; apply Hv.
  - unfold run. cbn [fold_left].
    destruct (dispatch_settled v e Hv) as (Hs & Hl & Hu).
    destruct (IH (dispatch v e) Hs) as (Hs' & Hl' & Hu').
    unfold run in *. rewrite Hl', Hu', Hl, Hu. repeat split; try apply Hs'.
Qed.

End Reachable_invariant.

(** X7: when [init] succeeds, after any sequence of events the canvas
    shows the image of the current View State: every handler that changes
    the View State renders before it returns. *)
Theorem canvas_always_shows_current_view_state
  {F : Type} `{ShaderArith F} (b : Browser) (events : list Event) :
  init_failure b = None ->
  let v := run events (new_JuliaSetViewer b) in
  initialised v = true /\ displayed v = Some (image_of (view_state v)).
Proof.
  intros Hb v.
  destruct (run_settled events _ (new_viewer_settled b)) as ((Hi & Hd & _) & Hl & _).
  fold v in Hi, Hd, Hl.
  assert (Hon : listeners v = true).
  { rewrite Hl, (init_succeeded b Hb), render_exec.
    cbn [gl set_loading_show set_ui_listeners set_listeners set_gl]. reflexivity. }
  split; [apply Hi | apply Hd]; left; exact Hon.
Qed.

Lemma canvas_always_shows_current_view_state_witness :
  let v := @run float binary64
             [Wheel 1; MouseDown 1 1; MouseMove 2 3; MouseUp; IterInput "20";
              WindowResize 2 2 1]
             small_viewer in
  displayed v = Some (@image_of float binary64 (view_state v)).
Proof.
  intros v.
  destruct (@canvas_always_shows_current_view_state float binary64 small_window
              [Wheel 1; MouseDown 1 1; MouseMove 2 3; MouseUp; IterInput "20";
               WindowResize 2 2 1] eq_refl) as [_ Hd].
  exact Hd.
Defined.

(** X9: in every state that the constructor and any sequence of events
    lead to, the context has issued exactly as many draw calls as [render]
    was called; without a context [render] was never called. *)
Theorem draw_calls_equal_render_calls
  {F : Type} `{ShaderArith F} (b : Browser) (events : list Event) :
  let v := run events (new_JuliaSetViewer b) in
  (forall g, gl v = Some g -> gl_draws g = render_calls v) /\
  (gl v = None -> render_calls v = 0%nat).
Proof.
  intros v.
  destruct (run_settled events _ (new_viewer_settled b)) as ((_ & _ & Hg & Hn) & _).
  split; assumption.
Qed.

Lemma draw_calls_equal_render_calls_witness :
  let v := @run float binary64 [Wheel 1; MouseDown 1 1; MouseMove 2 3; ZoomInput "2"]
             (@new_JuliaSetViewer float binary64 small_window) in
  (forall g, gl v = Some g -> gl_draws g = render_calls v) /\
  render_calls v = 4%nat.
Proof.
  intros v. split; [|vm_compute; reflexivity].
  exact (proj1 (@draw_calls_equal_render_calls float binary64 small_window
                  [Wheel 1; MouseDown 1 1; MouseMove 2 3; ZoomInput "2"])).
Defined.

(** X10: the constructor never throws, since [init] catches every error;
    and in every state that it and any sequence of events lead to, the
    handler of an event that has a listener returns: [render] never finds
    [this.gl] null. *)
Theorem constructor_and_handlers_never_throw
  {F : Type} `{ShaderArith F} (b : Browser) (events : list Event) (e : Event) :
  fst (init b (constructed b)) = Returned tt /\
  (let v := run events (new_JuliaSetViewer b) in
   listening e v = true -> fst (handle e v) = Returned tt).
Proof.
  split.
  - unfold init, try_catch.
    match goal with
    | |- fst (match ?body with _ => _ end) = _ => destruct body as [[[]|message] s]
    end; reflexivity.
  - intros v Hlis.
    destruct (run_settled events _ (new_viewer_settled b)) as ((Hi & _) & _).
    fold v in Hi.
    assert (Hinit : initialised v = true).
    { apply Hi. destruct e; cbn [listening] in Hlis; auto. }
    unfold initialised in Hinit.
    rewrite (handle_returns e v); [reflexivity|].
    destruct (gl v); [discriminate | discriminate].
Qed.

Lemma constructor_and_handlers_never_throw_witness :
  fst (@handle float binary64 (WindowResize 2 2 1)
         (@run float binary64 [Wheel 1; ZoomInput "x"] small_viewer))
  = Returned tt.
Proof.
  destruct (@constructor_and_handlers_never_throw float binary64 small_window
              [Wheel 1; ZoomInput "x"] (WindowResize 2 2 1)) as [_ Hh].
  apply Hh. vm_compute. reflexivity.
Defined.

(* ================================================================== *)
(** * More on the handlers *)
(* ================================================================== *)

Section Wheel_on_any_zoom.

Local Open Scope float_scope.

Lemma is_nan_true_iff (x : float) : is_nan x = true <-> Prim2SF x = S754_nan.
Proof.
  split.
  - intros Hx. destruct (Prim2SF x) as [s|s| |s m e] eqn:Hs; try reflexivity;
      assert (Hf : is_nan x = false)
        by (apply is_nan_false_iff; rewrite Hs; discriminate);
      congruence.
  - intros Hx. unfold is_nan. rewrite FloatAxioms.eqb_spec, Hx. reflexivity.
Qed.

Lemma wheel_zoom_nan (deltaY zoom : float) :
  is_nan zoom = true -> is_nan (wheel_zoom deltaY zoom) = true.
Proof.
  intros Hz. unfold wheel_zoom.
  set (zoomFactor := if 0 <? deltaY then 0.9 else 1.1).
  assert (Hm : is_nan (zoom * zoomFactor) = true).
  { apply is_nan_true_iff. rewrite FloatAxioms.mul_spec.
    apply is_nan_true_iff in Hz. rewrite Hz. reflexivity. }
  unfold JS.Math_min at 1. rewrite Hm, orb_true_r.
  reflexivity.
Qed.

End Wheel_on_any_zoom.

(** X6: a wheel event brings every zoom that is a number, in range or
    not, into [0.1, 10] in one step; a zoom that is NaN, as the zoom slider
    handler stores for a value that does not parse, stays NaN. *)
Theorem wheel_clamps_every_number_and_keeps_nan
  {F : Type} `{ShaderArith F} (v : Viewer F) (deltaY : float) :
  listeners v = true ->
  let z' := zoom (dispatch v (Wheel deltaY)) in
  (is_nan (zoom v) = false ->
   (0.1 <=? z')%float = true /\ (z' <=? 10)%float = true) /\
  (is_nan (zoom v) = true -> is_nan z' = true).
Proof.
  intros Hl z'. unfold z'. rewrite dispatch_wheel_zoom, Hl. split.
  - apply wheel_zoom_in_range.
  - apply wheel_zoom_nan.
Qed.

Lemma wheel_clamps_every_number_and_keeps_nan_witness :
  let far := @dispatch float binary64 small_viewer (ZoomInput "250") in
  let lost := @dispatch float binary64 small_viewer (ZoomInput "") in
  zoom far = 250%float /\
  zoom (@dispatch float binary64 far (Wheel 1)) = 10%float /\
  is_nan (zoom (@dispatch float binary64 lost (Wheel 1))) = true.
Proof.
  intros far lost.
  destruct (@wheel_clamps_every_number_and_keeps_nan float binary64 lost 1%float)
    as [_ Hnan]; [vm_compute; reflexivity|].
  destruct (@wheel_clamps_every_number_and_keeps_nan float binary64 far 1%float)
    as [Hnum _]; [vm_compute; reflexivity|].
  split; [vm_compute; reflexivity|]. split; [vm_compute; reflexivity|].
  apply Hnan. vm_compute. reflexivity.
Defined.

Section Panel_and_drag.

Context {F : Type} `{ShaderArith F}.

Lemma mousemove_idle (v : Viewer F) (clientX clientY : float) :
  isDragging v = false -> dispatch v (MouseMove clientX clientY) = v.
Proof.
  intros Hd. unfold dispatch. destruct (listening _ v); [|reflexivity].
  rewrite handle_exec, Hd. reflexivity.
Qed.

Lemma run_mousemoves_idle (moves : list (float * float)) (v : Viewer F) :
  isDragging v = false ->
  run (map (fun p => MouseMove (fst p) (snd p)) moves) v = v.
Proof.
  intros Hd. induction moves as [|p moves IH]; [reflexivity|].
  cbn [map]. unfold run in *. cbn [fold_left].
  rewrite mousemove_idle by exact Hd. exact IH.
Qed.

Lemma new_viewer_not_dragging (b : Browser) :
  isDragging (new_JuliaSetViewer b : Viewer F) = false.
Proof.
  destruct (init_failure b) as [message|] eqn:Hb.
  - revert Hb.
    unfold init_failure, new_JuliaSetViewer, init, try_catch, exec.
    unfold resizeCanvas, createShaderProgram, compileShader, setupGeometry,
      setupEventListeners, setupUIEventListeners, showError,
      bind, modify, get, ret, throw.
    cbn [gl constructed set_canvas_width set_canvas_height set_gl fst snd].
    destruct (webgl b || experimental_webgl b); cbn [negb]; [|reflexivity].
    destruct (vertex_log b); [reflexivity|].
    destruct (fragment_log b); [reflexivity|].
    destruct (link_log b); [reflexivity|discriminate].
  - rewrite (init_succeeded b Hb), render_exec.
    cbn [gl set_loading_show set_ui_listeners set_listeners set_gl]. reflexivity.
Qed.

Lemma run_mousemoves_unheard (moves : list (float * float)) (v : Viewer F) :
  listeners v = false ->
  run (map (fun p => MouseMove (fst p) (snd p)) moves) v = v.
Proof.
  intros Hl. induction moves as [|p moves IH]; [reflexivity|].
  cbn [map]. unfold run in *. cbn [fold_left].
  unfold dispatch at 2. cbn [listening]. rewrite Hl. exact IH.
Qed.

End Panel_and_drag.

(** X12: [isDragging] is set by [mousedown] only and cleared by
    [mouseup]: after a [mouseup], and in a new viewer before any
    [mousedown], every sequence of [mousemove] events leaves the viewer as it
    is, without a render. *)
Theorem mousemove_needs_a_drag
  {F : Type} `{ShaderArith F} (moves : list (float * float)) :
  (forall v : Viewer F,
      run (MouseUp :: map (fun p => MouseMove (fst p) (snd p)) moves) v
      = dispatch v MouseUp) /\
  (forall b : Browser,
      run (map (fun p => MouseMove (fst p) (snd p)) moves) (new_JuliaSetViewer b)
      = (new_JuliaSetViewer b : Viewer F)) /\
  (forall (v : Viewer F) (x y : float),
      listeners v = true ->
      isDragging (dispatch v (MouseDown x y)) = true /\
      isDragging (dispatch v MouseUp) = false).
Proof.
  split; [|split].
  - intros v. unfold run. cbn [fold_left].
    destruct (listeners v) eqn:Hl.
    + apply run_mousemoves_idle.
      unfold dispatch. cbn [listening]. rewrite Hl, handle_exec. reflexivity.
    + assert (Hd : dispatch v MouseUp = v)
        by (unfold dispatch; cbn [listening]; rewrite Hl; reflexivity).
      rewrite Hd. apply run_mousemoves_unheard. exact Hl.
  - intros b. apply run_mousemoves_idle. apply new_viewer_not_dragging.
  - intros v x y Hl. unfold dispatch. cbn [listening]. rewrite Hl, !handle_exec.
    split; reflexivity.
Qed.

Lemma mousemove_needs_a_drag_witness :
  isDragging (@dispatch float binary64 small_viewer (MouseDown 1 1)) = true /\
  @run float binary64
    (MouseUp :: map (fun p => MouseMove (fst p) (snd p)) [(2, 3); (4, 5)]%float)
    (@dispatch float binary64 small_viewer (MouseDown 1 1))
  = @dispatch float binary64 (@dispatch float binary64 small_viewer (MouseDown 1 1)) MouseUp.
Proof.
  destruct (@mousemove_needs_a_drag float binary64 [(2, 3); (4, 5)]%float)
    as (Hup & _ & Hdown).
  split.
  - apply (Hdown small_viewer 1%float 1%float). vm_compute. reflexivity.
  - apply Hup.
Defined.

(** X11: the panel handlers.  Two clicks on the cog restore the viewer;
    the close button hides the panel; a click on the canvas hides a visible
    panel unless [isDragging] is set, and since [mouseup] clears that flag, a
    click that follows a [mouseup] always leaves the panel hidden.  None of
    the three changes the View State, the context, the drag flag or the
    number of renders. *)
Theorem controls_panel_handlers
  {F : Type} `{ShaderArith F} (v : Viewer F) :
  ui_listeners v = true ->
  dispatch (dispatch v CogClick) CogClick = v /\
  controlsVisible (dispatch v CogClick) = negb (controlsVisible v) /\
  controlsVisible (dispatch v CloseClick) = false /\
  controlsVisible (dispatch v CanvasClick) = controlsVisible v && isDragging v /\
  (listeners v = true -> controlsVisible (run [MouseUp; CanvasClick] v) = false) /\
  (forall e, e = CogClick \/ e = CloseClick \/ e = CanvasClick ->
     view_state (dispatch v e) = view_state v /\ gl (dispatch v e) = gl v /\
     isDragging (dispatch v e) = isDragging v /\
     render_calls (dispatch v e) = render_calls v).
Proof.
  intros Hu.
  assert (Hcog : forall u : Viewer F,
             ui_listeners u = true ->
             dispatch u CogClick = set_controlsVisible (negb (controlsVisible u)) u).
  { intros u Hlu. unfold dispatch. cbn [listening]. rewrite Hlu, handle_exec.
    reflexivity. }
  assert (Hup : listeners v = true -> dispatch v MouseUp = set_isDragging false v).
  { intros Hl. unfold dispatch. cbn [listening]. rewrite Hl, handle_exec.
    reflexivity. }
  split; [|split; [|split; [|split; [|split]]]].
  - rewrite (Hcog v Hu), (Hcog (set_controlsVisible _ v) Hu).
    destruct v. cbn. rewrite negb_involutive. reflexivity.
  - unfold dispatch. cbn [listening]. rewrite Hu, handle_exec. reflexivity.
  - unfold dispatch. cbn [listening]. rewrite Hu, handle_exec. reflexivity.
  - unfold dispatch. cbn [listening]. rewrite Hu, handle_exec.
    destruct (controlsVisible v) eqn:Hc, (isDragging v) eqn:Hd; cbn; try reflexivity;
      exact Hc.
  - intros Hl. unfold run. cbn [fold_left]. rewrite (Hup Hl).
    unfold dispatch. cbn [listening ui_listeners set_isDragging].
    rewrite Hu, handle_exec. cbn [controlsVisible isDragging set_isDragging].
    destruct (controlsVisible v) eqn:Hc; cbn; [reflexivity | exact Hc].
  - intros e He. unfold dispatch.
    destruct He as [-> | [-> | ->]]; cbn [listening]; rewrite Hu, handle_exec.
    + repeat split.
    + repeat split.
    + destruct (controlsVisible v && negb (isDragging v)); repeat split.
Qed.

Lemma controls_panel_handlers_witness :
  @dispatch float binary64 (@dispatch float binary64 small_viewer CogClick) CogClick
  = small_viewer /\
  controlsVisible
    (@run float binary64 [MouseUp; CanvasClick]
       (@run float binary64 [CogClick; MouseDown 1 1] small_viewer)) = false.
Proof.
  destruct (@controls_panel_handlers float binary64 small_viewer) as (Htwice & _);
    [vm_compute; reflexivity|].
  destruct (@controls_panel_handlers float binary64
              (@run float binary64 [CogClick; MouseDown 1 1] small_viewer))
    as (_ & _ & _ & _ & Hclick & _); [vm_compute; reflexivity|].
  split; [exact Htwice|]. apply Hclick. vm_compute. reflexivity.
Defined.

(** X14: a resize, on a viewer that has a context, assigns the window size
    times the device pixel ratio to the canvas size, with ratio 1 when the
    reported ratio is 0 or NaN.  Each product is truncated and taken modulo
    2^32, and replaced by the default of the attribute, 300 for the width
    and 150 for the height, when the result is above 2147483647; so the
    canvas size always lies between 0 and 2147483647.  The resize leaves [c],
    the zoom, the offset and [maxIterations] as they were and renders
    once. *)
Theorem resize_sets_canvas_size
  {F : Type} `{ShaderArith F} (v : Viewer F) (g : GL F) (width height ratio : float) :
  listeners v = true -> gl v = Some g ->
  let v' := dispatch v (WindowResize width height ratio) in
  let r := if (is_nan ratio || is_zero ratio)%bool then 1%float else ratio in
  let w := JS.ToUint32 (width * r)%float in
  let h := JS.ToUint32 (height * r)%float in
  canvas_width v' = (if (w <=? 2147483647)%Z then w else 300%Z) /\
  canvas_height v' = (if (h <=? 2147483647)%Z then h else 150%Z) /\
  (0 <= canvas_width v' <= 2147483647)%Z /\
  (0 <= canvas_height v' <= 2147483647)%Z /\
  (juliaReal v' = juliaReal v /\ juliaImag v' = juliaImag v /\ zoom v' = zoom v /\
   offsetX v' = offsetX v /\ offsetY v' = offsetY v /\
   maxIterations v' = maxIterations v) /\
  render_calls v' = S (render_calls v).
Proof.
  intros Hl Hg v' r w h.
  assert (Hw : canvas_width v' = (if (w <=? 2147483647)%Z then w else 300%Z) /\
               canvas_height v' = (if (h <=? 2147483647)%Z then h else 150%Z) /\
               (juliaReal v' = juliaReal v /\ juliaImag v' = juliaImag v /\
                zoom v' = zoom v /\ offsetX v' = offsetX v /\ offsetY v' = offsetY v /\
                maxIterations v' = maxIterations v) /\
               render_calls v' = S (render_calls v)).
  { unfold v', dispatch. cbn [listening]. rewrite Hl, handle_exec.
    rewrite resizeCanvas_exec. cbv zeta. rewrite Hg, render_exec.
    cbn [gl set_gl set_canvas_height set_canvas_width set_render_calls
         canvas_width canvas_height juliaReal juliaImag zoom offsetX offsetY
         maxIterations render_calls].
    unfold JS.reflect_unsigned_long, JS.or_default. fold r. fold w. fold h.
    repeat split. }
  destruct Hw as (Hcw & Hch & Hp & Hr).
  assert (Hwr : (0 <= w < 2 ^ 32)%Z) by (apply Z.mod_pos_bound; reflexivity).
  assert (Hhr : (0 <= h < 2 ^ 32)%Z) by (apply Z.mod_pos_bound; reflexivity).
  split; [exact Hcw|]. split; [exact Hch|].
  split; [rewrite Hcw; destruct (Z.leb_spec w 2147483647); lia|].
  split; [rewrite Hch; destruct (Z.leb_spec h 2147483647); lia|].
  split; [exact Hp | exact Hr].
Qed.

Lemma resize_sets_canvas_size_witness :
  let v' := @dispatch float binary64 small_viewer (WindowResize 4.5 2 0) in
  let v'' := @dispatch float binary64 small_viewer (WindowResize (-1) 2 1) in
  (canvas_width v' = 4%Z /\ canvas_height v' = 2%Z) /\
  (canvas_width v'' = 300%Z /\ canvas_height v'' = 2%Z).
Proof.
  intros v' v''.
  assert (Hg : gl small_viewer <> None) by (vm_compute; discriminate).
  destruct (gl small_viewer) as [g|] eqn:Hgl; [|congruence].
  destruct (@resize_sets_canvas_size float binary64 small_viewer g
              4.5%float 2%float 0%float) as (Hw & Hh & _);
    [vm_compute; reflexivity | exact Hgl |].
  destruct (@resize_sets_canvas_size float binary64 small_viewer g
              (-1)%float 2%float 1%float) as (Hw' & Hh' & _);
    [vm_compute; reflexivity | exact Hgl |].
  fold v' in Hw, Hh. fold v'' in Hw', Hh'.
  split; split.
  - rewrite Hw. vm_compute. reflexivity.
  - rewrite Hh. vm_compute. reflexivity.
  - rewrite Hw'. vm_compute. reflexivity.
  - rewrite Hh'. vm_compute. reflexivity.
Defined.

(** X13: each slider handler stores what [parseFloat] (for the three
    parameters) or [parseInt] (for the iteration count) gives on the value of
    the control in its own field, NaN included when the value does not
    start with a number, and leaves the rest of the View State and the drag
    state as they were; each renders once. *)
Theorem slider_writes_only_its_parameter
  {F : Type} `{ShaderArith F} (v : Viewer F) (value : string) :
  listeners v = true ->
  let same_mouse (v' : Viewer F) :=
    isDragging v' = isDragging v /\ lastMouseX v' = lastMouseX v /\
    lastMouseY v' = lastMouseY v /\ render_calls v' = S (render_calls v) in
  (view_state (dispatch v (RealInput value))
   = {| vs_c := (JS.parseFloat value, juliaImag v); vs_zoom := zoom v;
        vs_offset := (offsetX v, offsetY v); vs_maxIterations := maxIterations v;
        vs_viewportSize := (canvas_width v, canvas_height v) |} /\
   same_mouse (dispatch v (RealInput value))) /\
  (view_state (dispatch v (ImagInput value))
   = {| vs_c := (juliaReal v, JS.parseFloat value); vs_zoom := zoom v;
        vs_offset := (offsetX v, offsetY v); vs_maxIterations := maxIterations v;
        vs_viewportSize := (canvas_width v, canvas_height v) |} /\
   same_mouse (dispatch v (ImagInput value))) /\
  (view_state (dispatch v (ZoomInput value))
   = {| vs_c := (juliaReal v, juliaImag v); vs_zoom := JS.parseFloat value;
        vs_offset := (offsetX v, offsetY v); vs_maxIterations := maxIterations v;
        vs_viewportSize := (canvas_width v, canvas_height v) |} /\
   same_mouse (dispatch v (ZoomInput value))) /\
  (view_state (dispatch v (IterInput value))
   = {| vs_c := (juliaReal v, juliaImag v); vs_zoom := zoom v;
        vs_offset := (offsetX v, offsetY v); vs_maxIterations := JS.parseInt value;
        vs_viewportSize := (canvas_width v, canvas_height v) |} /\
   same_mouse (dispatch v (IterInput value))).
Proof.
  intros Hl same_mouse. unfold same_mouse, dispatch. cbn [listening]. rewrite Hl.
  rewrite !handle_exec, !render_view_state, !render_exec.
  cbn [gl set_juliaReal set_juliaImag set_zoom set_maxIterations].
  destruct (gl v); cbn; repeat split.
Qed.

Lemma slider_writes_only_its_parameter_witness :
  zoom (@dispatch float binary64 small_viewer (ZoomInput "25e-1")) = 2.5%float /\
  maxIterations (@dispatch float binary64 small_viewer (IterInput " 0x10")) = 16%float /\
  is_nan (juliaReal (@dispatch float binary64 small_viewer (RealInput "none"))) = true /\
  juliaImag (@dispatch float binary64 small_viewer (RealInput "none")) = 0.27015%float.
Proof.
  destruct (@slider_writes_only_its_parameter float binary64 small_viewer "25e-1")
    as (_ & _ & [Hz _] & _); [vm_compute; reflexivity|].
  destruct (@slider_writes_only_its_parameter float binary64 small_viewer " 0x10")
    as (_ & _ & _ & [Hi _]); [vm_compute; reflexivity|].
  destruct (@slider_writes_only_its_parameter float binary64 small_viewer "none")
    as ([Hr _] & _); [vm_compute; reflexivity|].
  split; [|split; [|split]].
  - change (vs_zoom (view_state (@dispatch float binary64 small_viewer (ZoomInput "25e-1")))
            = 2.5%float).
    rewrite Hz. vm_compute. reflexivity.
  - change (vs_maxIterations
              (view_state (@dispatch float binary64 small_viewer (IterInput " 0x10")))
            = 16%float).
    rewrite Hi. vm_compute. reflexivity.
  - change (is_nan (fst (vs_c (view_state
              (@dispatch float binary64 small_viewer (RealInput "none"))))) = true).
    rewrite Hr. vm_compute. reflexivity.
  - change (snd (vs_c (view_state
              (@dispatch float binary64 small_viewer (RealInput "none")))) = 0.27015%float).
    rewrite Hr. vm_compute. reflexivity.
Defined.
